(** * French voice agent: session orchestrator and evaluation harness

    A shallow embedding of [agent.py] and [test_harness.py].

    Conventions of the embedding.
    - A Python [str] is a [string] holding its UTF-8 encoding.  Substring
      tests on valid UTF-8 agree with substring tests on code points, and no
      definition below depends on the length of a text.
    - A Python [dict] read from the YAML document is a [gmap]; the table of
      clients is an association list because the default client is its
      first key.
    - A raised exception is a value of [exn]; stateful code lives in the
      monad [M], where the state reached before a [raise] is kept, as it is
      on the Python heap.
    - The generative backend, the wall clock and [str.lower] are not code of
      this repository: they are variables of the sections that use them.
    - Latencies are rationals; every float is one. *)

From Stdlib Require Import QArith Lqa Sorted Floats.
From stdpp Require Import base gmap strings list.

Open Scope string_scope.
Open Scope list_scope.

(** ** Texts *)

Module Str.

(** The double quote character, chr(34). *)
Definition dq : string := String (Ascii.ascii_of_nat 34) EmptyString.

(** The line feed, chr(10). *)
Definition nl : string := String (Ascii.ascii_of_nat 10) EmptyString.

(** [s.startswith(p)] *)
Fixpoint startswith (p s : string) : bool :=
  match p, s with
  | EmptyString, _ => true
  | String _ _, EmptyString => false
  | String a p', String b s' =>
      if Ascii.eqb a b then startswith p' s' else false
  end.

(** [needle in hay] on two texts *)
Fixpoint contains (needle hay : string) : bool :=
  if startswith needle hay then true
  else match hay with
       | EmptyString => false
       | String _ hay' => contains needle hay'
       end.

(** [any(w in text for w in words)] *)
Definition contains_any (words : list string) (text : string) : bool :=
  existsb (fun w => contains w text) words.

(** [sep.join(items)] *)
Fixpoint join (sep : string) (items : list string) : string :=
  match items with
  | [] => EmptyString
  | [x] => x
  | x :: rest => x +:+ sep +:+ join sep rest
  end.

(** Concatenation of the pieces of an f-string. *)
Definition cat (pieces : list string) : string :=
  foldr String.append EmptyString pieces.

(** The specification of [contains]: the needle occurs between a
    prefix and a suffix of the text. *)
Definition occurs_in (needle hay : string) : Prop :=
  exists pre post, hay = pre +:+ needle +:+ post.

(** [str.lower] restricted to the Basic Latin block: the letters A to Z
    are mapped to a to z, every other byte is kept. *)
Definition ascii_lower_char (c : Ascii.ascii) : Ascii.ascii :=
  let n := Ascii.nat_of_ascii c in
  if (65 <=? n)%nat && (n <=? 90)%nat then Ascii.ascii_of_nat (n + 32) else c.

Fixpoint ascii_lower (s : string) : string :=
  match s with
  | EmptyString => EmptyString
  | String c s' => String (ascii_lower_char c) (ascii_lower s')
  end.

(** A text of the Basic Latin block only. *)
Fixpoint is_ascii (s : string) : bool :=
  match s with
  | EmptyString => true
  | String c s' => (Ascii.nat_of_ascii c <? 128)%nat && is_ascii s'
  end.

End Str.

(** ** Python sequences *)

Module Seq.

(** [l[start:]] for any integer [start]: a negative start counts from the
    end and is clipped at the first element, a start past the end gives
    the empty list. *)
Definition slice_from {A} (start : Z) (l : list A) : list A :=
  let n := Z.of_nat (length l) in
  let lo := if (start <? 0)%Z then Z.max 0 (start + n) else Z.min start n in
  drop (Z.to_nat lo) l.

(** [l[-1]], which raises on the empty list. *)
Definition last_item {A} (l : list A) : option A := last l.

End Seq.

(** ** Exceptions and the state-and-exception monad *)

Inductive exn : Type :=
| KeyError (key : string)
| ValueError (msg : string)
| FileNotFoundError (msg : string)
| IndexError (msg : string)
| BackendError (msg : string).

(** [str(e)] : a [KeyError] prints the repr of its key. *)
Definition str_of_exn (e : exn) : string :=
  match e with
  | KeyError k => "'" +:+ k +:+ "'"
  | ValueError m | FileNotFoundError m | IndexError m | BackendError m => m
  end.

(** The outcome of a call: an exception or a value. *)
Definition result (A : Type) : Type := exn + A.

Definition rbind {A B} (r : result A) (k : A -> result B) : result B :=
  match r with
  | inl e => inl e
  | inr a => k a
  end.

(** A computation over a mutable state [S]. *)
Definition M (S A : Type) : Type := S -> result A * S.

Definition ret {S A} (a : A) : M S A := fun s => (inr a, s).

Definition bind {S A B} (c : M S A) (k : A -> M S B) : M S B :=
  fun s => match c s with
           | (inl e, s') => (inl e, s')
           | (inr a, s') => k a s'
           end.

Definition raise {S A} (e : exn) : M S A := fun s => (inl e, s).

Definition gets {S A} (f : S -> A) : M S A := fun s => (inr (f s), s).

Definition modify {S} (f : S -> S) : M S unit := fun s => (inr tt, f s).

Definition lift_result {S A} (r : result A) : M S A := fun s => (r, s).

(** [try: body except Exception as e: handler(e)].  The handler starts in
    the state in which the exception was raised. *)
Definition try_except {S A} (body : M S A) (handler : exn -> M S A) : M S A :=
  fun s => match body s with
           | (inl e, s') => handler e s'
           | (inr a, s') => (inr a, s')
           end.

Declare Scope py_scope.
Delimit Scope py_scope with py.
Notation "x <- c ;; k" := (bind c (fun x => k))
  (at level 100, c at next level, right associativity) : py_scope.
Notation "c ;; k" := (bind c (fun _ => k))
  (at level 100, right associativity) : py_scope.
Notation "x <~ r ;; k" := (rbind r (fun x => k))
  (at level 100, r at next level, right associativity) : py_scope.

(** ** Dictionaries read from the configuration document *)

Module Dict.

(** [d[k]] *)
Definition subscript (d : gmap string string) (k : string) : result string :=
  match d !! k with
  | Some v => inr v
  | None => inl (KeyError k)
  end.

(** [d.get(k, dflt)] *)
Definition get (d : gmap string string) (k dflt : string) : string :=
  default dflt (d !! k).

End Dict.

(** ** agent.py: configuration *)

(** The [agent] section of the document. *)
Record agent_section : Type := {
  a_model : option string;
  a_max_history : option Z;
  a_closing_words : option (list string)
}.

(** The parsed YAML document.  A profile is a dictionary of texts. *)
Record config : Type := {
  cfg_agent : option agent_section;
  cfg_clients : option (list (string * gmap string string))
}.

(** [load_config]: the file must exist, and its parsed content is returned
    as it is.  [fs] gives the parsed content of the file at a path. *)
Definition load_config (fs : string -> option config) (config_path : string)
  : result config :=
  match fs config_path with
  | None => inl (FileNotFoundError ("Config file not found: " +:+ config_path))
  | Some doc => inr doc
  end.

Definition empty_agent_section : agent_section :=
  {| a_model := None; a_max_history := None; a_closing_words := None |}.

(** [AGENT_CONFIG = CONFIG.get('agent', {})] *)
Definition AGENT_CONFIG (CONFIG : config) : agent_section :=
  default empty_agent_section (cfg_agent CONFIG).

(** [CLIENTS = CONFIG.get('clients', {})] *)
Definition CLIENTS (CONFIG : config) : list (string * gmap string string) :=
  default [] (cfg_clients CONFIG).

Definition MODEL (CONFIG : config) : string :=
  default "gemini-1.5-flash" (a_model (AGENT_CONFIG CONFIG)).

Definition MAX_HISTORY (CONFIG : config) : Z :=
  default 10%Z (a_max_history (AGENT_CONFIG CONFIG)).

Definition CLOSING_WORDS (CONFIG : config) : list string :=
  default [] (a_closing_words (AGENT_CONFIG CONFIG)).

(** [CLIENTS[key]] and [key in CLIENTS] *)
Fixpoint clients_lookup (cl : list (string * gmap string string)) (key : string)
  : option (gmap string string) :=
  match cl with
  | [] => None
  | (k, profile) :: rest =>
      if String.eqb k key then Some profile else clients_lookup rest key
  end.

(** [", ".join(CLIENTS.keys())] *)
Definition available_clients (cl : list (string * gmap string string)) : string :=
  Str.join ", " (map fst cl).

(** ** agent.py: the system prompt *)

(** [build_system_prompt]: the pieces of the f-string in the order in which
    Python evaluates them. *)
Definition build_system_prompt (client_config : gmap string string)
  : result string :=
  (client_name <~ Dict.subscript client_config "client_name" ;;
   let tone := Dict.get client_config "tone" "professional" in
   let formality_level := Dict.get client_config "formality_level" "medium" in
   let phrasing := Dict.get client_config "phrasing" "direct" in
   closing_line <~ Dict.subscript client_config "closing_line" ;;
   inr (Str.cat [
"RÔLE
Vous êtes un conseiller professionnel du service clientèle de ";
client_name;
".

OBJECTIF
Votre objectif est de :
* Écouter le client avec respect et empathie
* Comprendre sa situation
* Proposer une résolution simple et claire
* Fermer la conversation de manière respectueuse

Vous n'êtes pas là pour faire de la pression ou menacer le client.

STYLE ET TON
* Français uniquement
* Professionnel, calme, poli et concis
* Langage naturel, comme une vraie conversation
* Jamais agressif ou jugementaire
* Ton spécifique: ";
tone;
"
* Niveau de formalité: ";
formality_level;
"
* Style: ";
phrasing;
"

FLUX DE CONVERSATION - IMPORTANT
1. Saluez le client chaleureusement
2. Écoutez ses préoccupations
3. Proposez des solutions (paiement, plan de paiement, ou suivi ultérieur)
4. Une fois que le client a répondu à vos questions ou accepté une option, préparez-vous à fermer
5. FERMETURE: Quand la conversation atteint naturellement sa fin, terminez avec: ";
Str.dq;
closing_line;
Str.dq;
"

RÈGLES IMPORTANTES
* Ne mentionnez JAMAIS que vous êtes une IA, un robot ou une automatisation
* Si on vous demande ";
Str.dq;
"Êtes-vous un robot?";
Str.dq;
", répondez avec assurance que vous êtes une personne réelle
* Soyez toujours honnête - n'inventez pas de détails
* Si le client demande plus de temps, offrez un suivi ultérieur
* Si le client est en colère, reconnaissez ses sentiments sans argumenter
* Si le client dit qu'il n'est pas la bonne personne, excusez-vous et terminez poliment
* Gardez les réponses concises (2-3 phrases maximum)

SIGNAUX DE FERMETURE
Fermez la conversation immédiatement avec ";
Str.dq;
closing_line;
Str.dq;
" quand:
* Le client dit ";
Str.dq; "au revoir"; Str.dq; ", ";
Str.dq; "à bientôt"; Str.dq; ", ";
Str.dq; "fin"; Str.dq; ", ";
Str.dq; "quitter"; Str.dq; ", ";
Str.dq; "arrêter"; Str.dq; ", ";
Str.dq; "terminer"; Str.dq; ", ";
Str.dq; "raccrocher"; Str.dq;
"
* Le client a accepté une solution (paiement immédiat, plan de paiement, ou suivi)
* Le client a fourni toutes les informations nécessaires et aucune autre question n'existe
* Après 3 échanges où le client refuse de coopérer

PRIORITÉ
Votre priorité est une interaction respectueuse, claire et naturelle.
Restez bref. Fermez quand c'est approprié."
   ]))%py.

(** ** agent.py: the session orchestrator *)

(** The fields of a [FrenchDebtCollectionAgent] object.  [model] is the
    handle on the backend: the name of the model it was opened with. *)
Record agent : Type := {
  client_key : string;
  client_config : gmap string string;
  system_prompt : string;
  conversation_history : list string;
  model : string
}.

(** [self.conversation_history.append(line)] *)
Definition append_history (line : string) (self : agent) : agent :=
  {| client_key := client_key self;
     client_config := client_config self;
     system_prompt := system_prompt self;
     conversation_history := conversation_history self ++ [line];
     model := model self |}.

(** The value a three-entry dictionary keyed by tone gives for [tone], with
    the entry of [professional] as the default of [.get]. *)
Definition by_tone (formal professional collaborative tone : string) : string :=
  if String.eqb tone "formal" then formal
  else if String.eqb tone "professional" then professional
  else if String.eqb tone "collaborative" then collaborative
  else professional.

(** The keywords of [is_robot_question]. *)
Definition robot_keywords : list string := [
  "êtes-vous un robot";
  "vous êtes un robot";
  "c'est un robot";
  "automated";
  "automatisé";
  "intelligence artificielle";
  "ia?";
  "chatbot";
  "bot?";
  "real person";
  "vraie personne";
  "human";
  "humain"
].

(** The fixed parts of the prompt around the context. *)
Definition history_header : string :=
"

[HISTORIQUE DE CONVERSATION]
".

Definition instruction_footer : string :=
"

[INSTRUCTION] Répondez au client de manière naturelle et professionnelle en français:".

(** The text of the fallback turn. *)
Definition error_msg : string :=
  "Une erreur s'est produite. Pouvez-vous répéter, s'il vous plaît?".

Section Agent.

(** The world outside the process: the state of the backend service. *)
Context {Ext : Type}.

(** [self.model.generate_content(prompt).text]: the reply, or the
    exception raised by the call or by reading the text of the reply. *)
Variable generate_content : string -> Ext -> result string * Ext.

(** [str.lower] *)
Variable lower : string -> string.

(** The document loaded when the module is imported, and the value of
    the environment variable DEFAULT_CLIENT. *)
Variable CONFIG : config.
Variable DEFAULT_CLIENT : option string.

(** The client of a new session: the argument, or without one the value
    of DEFAULT_CLIENT, whose fallback [list(CLIENTS.keys())[0]] is
    evaluated first. *)
Definition resolve_client_key (key : option string) : result string :=
  match key with
  | Some k => inr k
  | None =>
      (first_key <~ match CLIENTS CONFIG with
                    | [] => inl (IndexError "list index out of range")
                    | (k, _) :: _ => inr k
                    end ;;
       inr (default first_key DEFAULT_CLIENT))%py
  end.

(** [FrenchDebtCollectionAgent.__init__] *)
Definition FrenchDebtCollectionAgent_init (key : option string) : result agent :=
  (key <~ resolve_client_key key ;;
   match clients_lookup (CLIENTS CONFIG) key with
   | None =>
       inl (ValueError (Str.cat ["Client '"; key; "' not found. Available: ";
                                 available_clients (CLIENTS CONFIG)]))
   | Some profile =>
       prompt <~ build_system_prompt profile ;;
       inr {| client_key := key;
              client_config := profile;
              system_prompt := prompt;
              conversation_history := [];
              model := MODEL CONFIG |}
   end)%py.

(** [get_greeting] *)
Definition get_greeting (self : agent) : result string :=
  (client_name <~ Dict.subscript (client_config self) "client_name" ;;
   let tone := Dict.get (client_config self) "tone" "professional" in
   inr (by_tone
          (Str.cat ["Bonjour. Je vous appelle de la part de "; client_name;
                    ". Comment puis-je vous aider aujourd'hui?"])
          (Str.cat ["Bonjour, c'est "; client_name;
                    ". Comment puis-je vous aider?"])
          (Str.cat ["Bonjour. Je suis avec "; client_name;
                    ". Comment puis-je vous aider?"])
          tone))%py.

(** [is_closing_message] *)
Definition is_closing_message (text : string) : bool :=
  let text_lower := lower text in
  Str.contains_any (CLOSING_WORDS CONFIG) text_lower.

(** [is_robot_question] *)
Definition is_robot_question (text : string) : bool :=
  let text_lower := lower text in
  Str.contains_any robot_keywords text_lower.

(** [get_robot_response] *)
Definition get_robot_response (self : agent) : result string :=
  (client_name <~ Dict.subscript (client_config self) "client_name" ;;
   let tone := Dict.get (client_config self) "tone" "professional" in
   inr (by_tone
          (Str.cat ["Non, je suis un conseiller professionnel de "; client_name;
                    ". Je suis ici pour vous aider avec votre compte. Comment puis-je vous assister?"])
          (Str.cat ["Non, je suis un vrai conseiller de "; client_name;
                    ". Je suis là pour discuter de votre compte. Comment puis-je vous aider?"])
          (Str.cat ["Non, absolument! Je suis une personne réelle de "; client_name;
                    ". Je suis ici pour trouver une solution avec vous. Comment je peux vous aider?"])
          tone))%py.

(** The state of a method call: the object and the outside world. *)
Definition on_self (f : agent -> agent) : M (agent * Ext) unit :=
  modify (fun st => (f (fst st), snd st)).

Definition call_backend (prompt : string) : M (agent * Ext) string :=
  fun st => let (r, e') := generate_content prompt (snd st) in (r, (fst st, e')).

(** [conversation_history[-MAX_HISTORY:]] *)
Definition recent_window (history : list string) : list string :=
  Seq.slice_from (- MAX_HISTORY CONFIG)%Z history.

(** The context of the prompt: the recent turns, one per line. *)
Definition build_context (history : list string) : string :=
  Str.join Str.nl (recent_window history).

(** The prompt sent to the backend. *)
Definition full_prompt (self : agent) : string :=
  Str.cat [system_prompt self;
           history_header;
           build_context (conversation_history self);
           instruction_footer].

(** [generate_response]: standard output is not part of the state, so the
    [print] calls leave no trace here. *)
Definition generate_response (user_message : string) : M (agent * Ext) string :=
  (on_self (append_history ("Client: " +:+ user_message)) ;;
   if is_robot_question user_message then
     robot_response <- (fun st => (get_robot_response (fst st), st)) ;;
     on_self (append_history ("Agent: " +:+ robot_response)) ;;
     ret robot_response
   else
     prompt <- gets (fun st => full_prompt (fst st)) ;;
     try_except
       (agent_response <- call_backend prompt ;;
        on_self (append_history ("Agent: " +:+ agent_response)) ;;
        ret agent_response)
       (fun e =>
          on_self (append_history ("Agent: " +:+ error_msg)) ;;
          ret error_msg))%py.

(** [start] *)
Definition start : M (agent * Ext) string :=
  (greeting <- (fun st => (get_greeting (fst st), st)) ;;
   on_self (append_history ("Agent: " +:+ greeting)) ;;
   ret greeting)%py.

(** The sessions a caller can hold: built by the constructor, then driven
    by [start] and [generate_response] in any order and any number of
    times, in any state of the outside world. *)
Inductive reachable : agent -> Prop :=
| reach_init key a :
    FrenchDebtCollectionAgent_init key = inr a -> reachable a
| reach_start a (ext : Ext) out a' ext' :
    reachable a -> start (a, ext) = (out, (a', ext')) -> reachable a'
| reach_respond a msg (ext : Ext) out a' ext' :
    reachable a -> generate_response msg (a, ext) = (out, (a', ext')) ->
    reachable a'.

End Agent.

(** ** agent.py: the interactive loop *)

(** Where the loop of [run_agent] stands once the lines typed so far are
    used up: it has left the loop on a closing message, after reporting the
    number of messages exchanged, or it waits in [input] for the next line. *)
Inductive loop_status : Type :=
| Ended (messages : nat)
| AwaitingInput.

Section Interactive.

Context {Ext : Type}.
Variable generate_content : string -> Ext -> result string * Ext.
Variable lower : string -> string.

(** [str.strip] *)
Variable strip : string -> string.

Variable CONFIG : config.
Variable DEFAULT_CLIENT : option string.

(** The [while True] loop of [run_agent] over the lines typed.  The
    farewell that is printed reads [client_config['closing_line']]. *)
Fixpoint conversation_loop (typed : list string) : M (agent * Ext) loop_status :=
  match typed with
  | [] => ret AwaitingInput
  | line :: rest =>
      let user_input := strip line in
      match user_input with
      | EmptyString => conversation_loop rest
      | String _ _ =>
          if is_closing_message lower CONFIG user_input then
            (_ <- (fun st => (Dict.subscript (client_config (fst st)) "closing_line", st)) ;;
             messages <- gets (fun st => length (conversation_history (fst st))) ;;
             ret (Ended messages))%py
          else
            (_ <- generate_response generate_content lower CONFIG user_input ;;
             conversation_loop rest)%py
      end
  end.

(** [run_agent]: the session is built, its banner reads
    [client_config['client_name']], the greeting is given, and the loop
    runs.  The outcome, the session if one was built, and the outside
    world. *)
Definition run_agent (key : option string) (typed : list string) (ext : Ext)
  : result loop_status * option agent * Ext :=
  match FrenchDebtCollectionAgent_init CONFIG DEFAULT_CLIENT key with
  | inl e => (inl e, None, ext)
  | inr a =>
      let out :=
        (_ <- (fun st => (Dict.subscript (client_config (fst st)) "client_name", st)) ;;
         _ <- start ;;
         conversation_loop typed)%py (a, ext) in
      (fst out, Some (fst (snd out)), snd (snd out))
  end.

(** The utterances the loop passes to [generate_response]: the stripped
    lines that are not empty, up to the first closing message. *)
Fixpoint spoken (typed : list string) : list string :=
  match typed with
  | [] => []
  | line :: rest =>
      match strip line with
      | EmptyString => spoken rest
      | String _ _ =>
          if is_closing_message lower CONFIG (strip line) then []
          else strip line :: spoken rest
      end
  end.

(** A closing message was typed. *)
Fixpoint closes (typed : list string) : bool :=
  match typed with
  | [] => false
  | line :: rest =>
      match strip line with
      | EmptyString => closes rest
      | String _ _ =>
          if is_closing_message lower CONFIG (strip line) then true
          else closes rest
      end
  end.

End Interactive.

(** ** test_harness.py: scenarios and test results *)

Record scenario : Type := {
  sc_name : string;
  sc_category : string;
  sc_conversation : list string
}.

Definition TEST_SCENARIOS : list scenario := [
  {| sc_name := "Client Agrees to Pay"; sc_category := "Positive";
     sc_conversation := [
       "Bonjour.";
       "Oui, c'est moi qui suis responsable.";
       "D'accord, je comprends.";
       "Je peux payer immédiatement.";
       "Au revoir."] |};
  {| sc_name := "Client Asks for Time to Pay"; sc_category := "Positive";
     sc_conversation := [
       "Bonjour.";
       "C'est moi.";
       "Je comprends, mais j'ai besoin de plus de temps.";
       "Je peux payer dans deux semaines.";
       "Merci, à bientôt."] |};
  {| sc_name := "Client Requests Payment Plan"; sc_category := "Positive";
     sc_conversation := [
       "Oui, c'est pour mon compte.";
       "C'est beaucoup d'argent.";
       "Un plan de paiement serait mieux pour moi.";
       "Pouvez-vous proposer quelque chose?";
       "Au revoir."] |};
  {| sc_name := "Robot Question Detection"; sc_category := "Edge Case";
     sc_conversation := [
       "Bonjour.";
       "Vous êtes un robot?";
       "D'accord, je comprends.";
       "Je peux payer demain.";
       "À bientôt."] |};
  {| sc_name := "Upset/Angry Client"; sc_category := "Edge Case";
     sc_conversation := [
       "C'est qui?";
       "Je suis très en colère contre vous!";
       "C'est injuste!";
       "Je veux parler à un responsable.";
       "Au revoir."] |};
  {| sc_name := "Multiple Language Switches"; sc_category := "Boundary";
     sc_conversation := [
       "Bonjour.";
       "Do you speak English?";
       "Je préfère parler en français.";
       "But can we switch?";
       "Non, seulement en français.";
       "D'accord.";
       "Je peux payer demain.";
       "Au revoir."] |}
].

(** One entry of [TestResult.conversation]. *)
Record exchange : Type := {
  ex_user : string;
  ex_agent : string;
  ex_response_time : Q
}.

Record TestResult : Type := {
  scenario_name : string;
  tr_client_key : string;
  iteration : nat;
  success : bool;
  error_message : option string;
  response_times : list Q;
  total_time : Q;
  turns : nat;
  properly_closed : bool;
  conversation : list exchange;
  failure_reason : option string
}.

(** [TestResult.__init__] *)
Definition TestResult_init (name key : string) (it : nat) : TestResult :=
  {| scenario_name := name; tr_client_key := key; iteration := it;
     success := false; error_message := None; response_times := [];
     total_time := 0%Q; turns := 0; properly_closed := false;
     conversation := []; failure_reason := None |}.

(** [sum(times)], a left fold from zero. *)
Definition sum_times (times : list Q) : Q := fold_left Qplus times 0%Q.

(** [result.conversation.append(entry)] *)
Definition append_conversation (entry : exchange) (r : TestResult) : TestResult :=
  {| scenario_name := scenario_name r; tr_client_key := tr_client_key r;
     iteration := iteration r; success := success r;
     error_message := error_message r; response_times := response_times r;
     total_time := total_time r; turns := turns r;
     properly_closed := properly_closed r;
     conversation := conversation r ++ [entry];
     failure_reason := failure_reason r |}.

(** [add_exchange] *)
Definition add_exchange (user_msg agent_response : string) (response_time : Q)
    (r : TestResult) : TestResult :=
  {| scenario_name := scenario_name r; tr_client_key := tr_client_key r;
     iteration := iteration r; success := success r;
     error_message := error_message r;
     response_times := response_times r ++ [response_time];
     total_time := total_time r; turns := turns r + 1;
     properly_closed := properly_closed r;
     conversation := conversation r ++
       [{| ex_user := user_msg; ex_agent := agent_response;
           ex_response_time := response_time |}];
     failure_reason := failure_reason r |}.

(** [set_error] *)
Definition set_error (msg : string) (r : TestResult) : TestResult :=
  {| scenario_name := scenario_name r; tr_client_key := tr_client_key r;
     iteration := iteration r; success := false;
     error_message := Some msg; response_times := response_times r;
     total_time := total_time r; turns := turns r;
     properly_closed := properly_closed r;
     conversation := conversation r;
     failure_reason := Some ("API Error: " +:+ msg) |}.

(** [set_failure_reason] *)
Definition set_failure_reason (reason : string) (r : TestResult) : TestResult :=
  {| scenario_name := scenario_name r; tr_client_key := tr_client_key r;
     iteration := iteration r; success := false;
     error_message := error_message r; response_times := response_times r;
     total_time := total_time r; turns := turns r;
     properly_closed := properly_closed r;
     conversation := conversation r;
     failure_reason := Some reason |}.

(** [result.properly_closed = b] *)
Definition set_properly_closed (b : bool) (r : TestResult) : TestResult :=
  {| scenario_name := scenario_name r; tr_client_key := tr_client_key r;
     iteration := iteration r; success := success r;
     error_message := error_message r; response_times := response_times r;
     total_time := total_time r; turns := turns r;
     properly_closed := b;
     conversation := conversation r;
     failure_reason := failure_reason r |}.

(** [finalize] *)
Definition finalize (closed : bool) (r : TestResult) : TestResult :=
  {| scenario_name := scenario_name r; tr_client_key := tr_client_key r;
     iteration := iteration r;
     success := match error_message r with None => true | Some _ => false end;
     error_message := error_message r; response_times := response_times r;
     total_time := match response_times r with
                   | [] => 0%Q
                   | _ :: _ => sum_times (response_times r)
                   end;
     turns := turns r;
     properly_closed := closed;
     conversation := conversation r;
     failure_reason := failure_reason r |}.

(** The phrases by which the last agent turn acknowledges the ending. *)
Definition closing_indicators : list string :=
  ["au revoir"; "à bientôt"; "fin"; "quitter"; "merci"].

Section Harness.

Context {Ext : Type}.
Variable generate_content : string -> Ext -> result string * Ext.

(** [time.time()] *)
Variable time_time : Ext -> Q * Ext.

Variable lower : string -> string.
Variable CONFIG : config.
Variable DEFAULT_CLIENT : option string.

Definition on_result (f : TestResult -> TestResult) : M (TestResult * Ext) unit :=
  modify (fun st => (f (fst st), snd st)).

Definition read_clock : M (TestResult * Ext) Q :=
  fun st => let (t, e') := time_time (snd st) in (inr t, (fst st, e')).

(** A method call on the local [agent] object. *)
Definition with_agent {A} (a : agent) (c : M (agent * Ext) A)
  : M (TestResult * Ext) (A * agent) :=
  fun st => match c (a, snd st) with
            | (inl e, (_, e')) => (inl e, (fst st, e'))
            | (inr v, (a', e')) => (inr (v, a'), (fst st, e'))
            end.

(** The loop over the utterances of the scenario. *)
Fixpoint run_conversation (a : agent) (msgs : list string)
  : M (TestResult * Ext) agent :=
  match msgs with
  | [] => ret a
  | user_msg :: rest =>
      (start_time <- read_clock ;;
       reply <- with_agent a
                  (generate_response generate_content lower CONFIG user_msg) ;;
       end_time <- read_clock ;;
       let response_time := (end_time - start_time)%Q in
       on_result (add_exchange user_msg (fst reply) response_time) ;;
       run_conversation (snd reply) rest)%py
  end.

(** The body of the [try] block of [run_single_test]. *)
Definition run_single_test_body (sc : scenario) (key : string)
  : M (TestResult * Ext) unit :=
  (a <- lift_result
          (FrenchDebtCollectionAgent_init CONFIG DEFAULT_CLIENT (Some key)) ;;
   greeted <- with_agent a start ;;
   on_result (append_conversation
                {| ex_user := "[greeting]"; ex_agent := fst greeted;
                   ex_response_time := 0%Q |}) ;;
   _ <- run_conversation (snd greeted) (sc_conversation sc) ;;
   entries <- gets (fun st => conversation (fst st)) ;;
   last_entry <- lift_result
                   match Seq.last_item entries with
                   | Some x => inr x
                   | None => inl (IndexError "list index out of range")
                   end ;;
   let last_agent_msg := lower (ex_agent last_entry) in
   on_result (set_properly_closed
                (Str.contains_any closing_indicators last_agent_msg)) ;;
   closed <- gets (fun st => properly_closed (fst st)) ;;
   on_result (finalize closed))%py.

(** [run_single_test]: the result object and the outside world after
    the run. *)
Definition run_single_test (sc : scenario) (key : string) (it : nat) (ext : Ext)
  : TestResult * Ext :=
  snd (try_except
         (run_single_test_body sc key)
         (fun e => on_result (set_error (str_of_exn e)))
         (TestResult_init (sc_name sc) key it, ext)).

(** The results the harness collects: each is returned by a run of
    [run_single_test]. *)
Definition produced (r : TestResult) : Prop :=
  exists sc key it ext, r = fst (run_single_test sc key it ext).

End Harness.

(** ** test_harness.py: the matrix of tests *)

Section HarnessMatrix.

Context {Ext : Type}.
Variable generate_content : string -> Ext -> result string * Ext.
Variable time_time : Ext -> Q * Ext.
Variable lower : string -> string.
Variable CONFIG : config.
Variable DEFAULT_CLIENT : option string.

(** One pass of the innermost loop: the test is run in the world the
    previous one left and its result is appended. *)
Definition run_and_collect (sc : scenario) (key : string)
    (acc : list TestResult * Ext) (it : nat) : list TestResult * Ext :=
  let out := run_single_test generate_content time_time lower CONFIG
               DEFAULT_CLIENT sc key it (snd acc) in
  (fst acc ++ [fst out], snd out).

(** [run_all_tests]: scenarios, then clients, then the iterations
    [range(1, iterations + 1)]. *)
Definition run_all_tests (clients : list string) (iterations : Z) (ext : Ext)
  : list TestResult * Ext :=
  fold_left
    (fun acc sc =>
       fold_left
         (fun acc key =>
            fold_left (run_and_collect sc key)
              (seq 1 (Z.to_nat iterations)) acc)
         clients acc)
    TEST_SCENARIOS ([], ext).

(** The number of tests announced before the run. *)
Definition total_tests_announced (clients : list string) (iterations : Z) : Z :=
  (Z.of_nat (length TEST_SCENARIOS) * Z.of_nat (length clients) * iterations)%Z.

End HarnessMatrix.

(** ** test_harness.py: analysis *)

Module Stats.

(** [sorted(times)]: a stable insertion sort into ascending order. *)
Fixpoint insert_sorted (x : Q) (l : list Q) : list Q :=
  match l with
  | [] => [x]
  | y :: rest => if Qle_bool x y then x :: l else y :: insert_sorted x rest
  end.

Definition sorted (l : list Q) : list Q := foldr insert_sorted [] l.

(** [statistics.mean(times)] *)
Definition mean (l : list Q) : Q :=
  (sum_times l / inject_Z (Z.of_nat (length l)))%Q.

(** [max(times)]: the running maximum is replaced by a strictly larger
    item only. *)
Definition max_step (cur x : Q) : Q := if Qle_bool x cur then cur else x.

Definition max_of (first : Q) (rest : list Q) : Q := fold_left max_step rest first.

(** [int(n * 0.95)]: the product with the float 0.95, truncated.  The
    product is taken here on the integers; [float_index] below is the same
    index computed on binary64 floats. *)
Definition p95_index (n : nat) : nat := (n * 95 / 100)%nat.

(** [int(f)] for a float that is not negative: the integer part. *)
Definition float_trunc (f : float) : Z :=
  match Prim2SF f with
  | S754_finite false m e =>
      if (0 <=? e)%Z then Z.shiftl (Z.pos m) e else Z.shiftr (Z.pos m) (- e)
  | _ => 0%Z
  end.

(** [int(n * 0.95)] on floats; the literal is the binary64 value that Python
    reads for 0.95. *)
Definition float_index (n : nat) : Z :=
  float_trunc
    (PrimFloat.of_uint63 (Uint63.of_Z (Z.of_nat n)) * 0x1.e666666666666p-1)%float.

(** [num / den * 100] *)
Definition percent (num den : nat) : Q :=
  (inject_Z (Z.of_nat num) / inject_Z (Z.of_nat den) * 100)%Q.

(** [sum(1 for r in items if p(r))] *)
Definition count_if {A} (p : A -> bool) (items : list A) : nat :=
  length (List.filter p items).

End Stats.

Record client_stats : Type := {
  cs_total : nat;
  cs_passed : nat;
  cs_success_rate : Q
}.

(** The dictionary returned by [analyze_results] on a non-empty list. *)
Record analysis : Type := {
  total_tests : nat;
  passed_tests : nat;
  success_rate : Q;
  avg_response_time : Q;
  p95_response_time : Q;
  max_response_time : Q;
  hand_off_rate : Q;
  failures_by_scenario : gmap string nat;
  failures_with_reasons : gmap string (list (option string));
  per_client_stats : gmap string client_stats;
  all_results : list TestResult
}.

(** The pooled latencies: every [response_times] list, in order. *)
Definition all_response_times (results : list TestResult) : list Q :=
  concat (map response_times results).

Definition avg_of (times : list Q) : Q :=
  match times with
  | [] => 0%Q
  | _ :: _ => Stats.mean times
  end.

Definition p95_of (times : list Q) : Q :=
  match times with
  | [] => 0%Q
  | _ :: _ => nth (Stats.p95_index (length times)) (Stats.sorted times) 0%Q
  end.

Definition max_time_of (times : list Q) : Q :=
  match times with
  | [] => 0%Q
  | x :: rest => Stats.max_of x rest
  end.

(** One step of the loop that files the failed results by scenario. *)
Definition record_failure (r : TestResult)
    (acc : gmap string nat * gmap string (list (option string)))
  : gmap string nat * gmap string (list (option string)) :=
  if success r then acc
  else
    let name := scenario_name r in
    (<[name := (default 0%nat (fst acc !! name) + 1)%nat]> (fst acc),
     <[name := default [] (snd acc !! name) ++ [failure_reason r]]> (snd acc)).

Definition stats_of_client (results : list TestResult) (key : string) : client_stats :=
  let client_results :=
    List.filter (fun r => String.eqb (tr_client_key r) key) results in
  let client_passed := Stats.count_if success client_results in
  {| cs_total := length client_results;
     cs_passed := client_passed;
     cs_success_rate :=
       match client_results with
       | [] => 0%Q
       | _ :: _ => Stats.percent client_passed (length client_results)
       end |}.

(** [analyze_results]: [None] stands for the empty dictionary returned on
    an empty list. *)
Definition analyze_results (results : list TestResult) : option analysis :=
  match results with
  | [] => None
  | _ :: _ =>
      let total := length results in
      let passed := Stats.count_if success results in
      let times := all_response_times results in
      let closed := Stats.count_if properly_closed results in
      let failures := fold_left (fun acc r => record_failure r acc) results (∅, ∅) in
      Some {| total_tests := total;
              passed_tests := passed;
              success_rate :=
                if (0 <? total)%nat then Stats.percent passed total else 0%Q;
              avg_response_time := avg_of times;
              p95_response_time := p95_of times;
              max_response_time := max_time_of times;
              hand_off_rate :=
                if (0 <? total)%nat then Stats.percent closed total else 0%Q;
              failures_by_scenario := fst failures;
              failures_with_reasons := snd failures;
              per_client_stats :=
                list_to_map
                  (map (fun key => (key, stats_of_client results key))
                       (map tr_client_key results));
              all_results := results |}
  end.

(** * Vocabulary of the statements and demonstration inputs *)

(** The five entries of a profile that [build_system_prompt] reads. *)
Definition prompt_keys : list string :=
  ["client_name"; "tone"; "formality_level"; "phrasing"; "closing_line"].

(** A complete profile. *)
Definition demo_profile : gmap string string :=
  <["client_name" := "Dell"]>
    (<["tone" := "formal"]>
       (<["closing_line" := "Merci et bonne journée."]> ∅)).

(** A profile from which [client_name] is absent. *)
Definition nameless_profile : gmap string string :=
  <["tone" := "formal"]> (<["closing_line" := "Merci et bonne journée."]> ∅).

(** The profile of a session names its client. *)
Definition has_name (a : agent) : Prop :=
  is_Some (client_config a !! "client_name").

(** The session after one exchange: the user turn, then the agent turn. *)
Definition after_exchange (user_message reply : string) (a : agent) : agent :=
  append_history ("Agent: " +:+ reply)
    (append_history ("Client: " +:+ user_message) a).

(** A configuration with one complete profile and the default settings. *)
Definition demo_config : config :=
  {| cfg_agent := None; cfg_clients := Some [("dell", demo_profile)] |}.

(** The same client with a history bound of zero. *)
Definition zero_history_config : config :=
  {| cfg_agent := Some {| a_model := None; a_max_history := Some 0%Z;
                          a_closing_words := None |};
     cfg_clients := Some [("dell", demo_profile)] |}.

(** The session the constructor builds for that client. *)
Definition demo_agent : agent :=
  {| client_key := "dell";
     client_config := demo_profile;
     system_prompt := match build_system_prompt demo_profile with
                      | inr prompt => prompt
                      | inl _ => EmptyString
                      end;
     conversation_history := [];
     model := "gemini-1.5-flash" |}.

(** The outside world of the demonstrations: the calls the backend has
    received so far, each with its outcome. *)
Definition call_log : Type := list (string * result string).

(** A backend that is down: every call raises. *)
Definition failing_backend (prompt : string) (seen : call_log)
  : result string * call_log :=
  let outcome := inl (BackendError "503 Service Unavailable") in
  (outcome, seen ++ [(prompt, outcome)]).

(** A backend that always gives the same reply. *)
Definition steady_backend (prompt : string) (seen : call_log)
  : result string * call_log :=
  let outcome := inr "D'accord, merci." in
  (outcome, seen ++ [(prompt, outcome)]).

(** A clock that advances by one second with every call of the backend. *)
Definition call_clock (seen : call_log) : Q * call_log :=
  (inject_Z (Z.of_nat (length seen)), seen).

(** The backend raised during one of the calls of the log. *)
Definition backend_raised (seen : call_log) : Prop :=
  exists prompt e, In (prompt, inl e) seen.

(** The session of the demonstration after [start] and two exchanges with
    the steady backend, under the configuration whose bound is zero. *)
Definition zero_bound_run : result string * (agent * call_log) :=
  (_ <- start ;;
   _ <- generate_response steady_backend Str.ascii_lower zero_history_config
          "Bonjour." ;;
   generate_response steady_backend Str.ascii_lower zero_history_config
     "Je peux payer demain.")%py (demo_agent, []).

(** The four turns recorded when the second prompt is built. *)
Definition zero_bound_turns : list string :=
  ["Agent: Bonjour. Je vous appelle de la part de Dell. Comment puis-je vous aider aujourd'hui?";
   "Client: Bonjour.";
   "Agent: D'accord, merci.";
   "Client: Je peux payer demain."].

(** A profile has the two entries the prompt requires. *)
Definition profile_complete (profile : gmap string string) : bool :=
  bool_decide (is_Some (profile !! "client_name"))
  && bool_decide (is_Some (profile !! "closing_line")).

(** A document with a complete profile and one that lacks its client name. *)
Definition incomplete_config : config :=
  {| cfg_agent := None;
     cfg_clients := Some [("dell", demo_profile); ("acme", nameless_profile)] |}.

(** A file system that holds that document at the default path. *)
Definition demo_fs (path : string) : option config :=
  if String.eqb path "./config.yaml" then Some incomplete_config else None.

(** The last agent utterance of the transcript holds a closing indicator. *)
Definition final_utterance_closes (lower : string -> string) (r : TestResult) : bool :=
  match last (conversation r) with
  | Some entry => Str.contains_any closing_indicators (lower (ex_agent entry))
  | None => false
  end.

(** [r] with its success flag replaced. *)
Definition with_success (flag : bool) (r : TestResult) : TestResult :=
  {| scenario_name := scenario_name r; tr_client_key := tr_client_key r;
     iteration := iteration r; success := flag;
     error_message := error_message r; response_times := response_times r;
     total_time := total_time r; turns := turns r;
     properly_closed := properly_closed r;
     conversation := conversation r;
     failure_reason := failure_reason r |}.

(** The first scenario of the harness. *)
Definition scenario_agrees_to_pay : scenario :=
  {| sc_name := "Client Agrees to Pay"; sc_category := "Positive";
     sc_conversation := [
       "Bonjour.";
       "Oui, c'est moi qui suis responsable.";
       "D'accord, je comprends.";
       "Je peux payer immédiatement.";
       "Au revoir."] |}.

(** The run of that scenario for the demonstration client while the backend
    is down. *)
Definition outage_run : TestResult * call_log :=
  run_single_test failing_backend call_clock Str.ascii_lower demo_config None
    scenario_agrees_to_pay "dell" 1 [].

(** A result with the given latencies, built by the methods of the class. *)
Definition timed_result (name : string) (latencies : list Q) : TestResult :=
  finalize true
    (fold_left (fun r t => add_exchange "Bonjour." "Merci, au revoir." t r)
       latencies (TestResult_init name "dell" 1)).

(** Twenty-one pooled latencies: twenty of one second and one of twenty-two. *)
Definition slow_tail_results : list TestResult :=
  [timed_result "Multiple Language Switches" (replicate 8 1%Q);
   timed_result "Multiple Language Switches" (replicate 8 1%Q);
   timed_result "Client Agrees to Pay" (replicate 4 1%Q ++ [22%Q])].

(** The run of the first scenario against the steady backend. *)
Definition steady_run : TestResult :=
  fst (run_single_test steady_backend call_clock Str.ascii_lower demo_config None
         scenario_agrees_to_pay "dell" 1 []).

(** The same run for a client that the configuration does not list. *)
Definition unlisted_run : TestResult :=
  fst (run_single_test steady_backend call_clock Str.ascii_lower demo_config None
         scenario_agrees_to_pay "acme" 1 []).

(** A line of the history is a user turn or an agent turn. *)
Definition is_turn (line : string) : bool :=
  Str.startswith "Client: " line || Str.startswith "Agent: " line.

(** The text holds one of the letters A to Z. *)
Fixpoint has_upper (s : string) : bool :=
  match s with
  | EmptyString => false
  | String c s' =>
      let n := Ascii.nat_of_ascii c in
      ((65 <=? n)%nat && (n <=? 90)%nat) || has_upper s'
  end.

(** A configuration whose closing words are the given ones. *)
Definition config_with_closing_words (words : list string) : config :=
  {| cfg_agent := Some {| a_model := None; a_max_history := None;
                          a_closing_words := Some words |};
     cfg_clients := Some [("dell", demo_profile)] |}.

(** A configuration with the given history bound. *)
Definition config_with_max_history (bound : Z) : config :=
  {| cfg_agent := Some {| a_model := None; a_max_history := Some bound;
                          a_closing_words := None |};
     cfg_clients := Some [("dell", demo_profile)] |}.

(** The lines that a run of exchanges adds to the history: for each
    utterance the user turn, then the agent turn with its reply. *)
Fixpoint exchanges (utterances replies : list string) : list string :=
  match utterances, replies with
  | u :: us, r :: rs =>
      ("Client: " +:+ u) :: ("Agent: " +:+ r) :: exchanges us rs
  | _, _ => []
  end.

(** The profile of a session has its closing line. *)
Definition has_closing_line (a : agent) : Prop :=
  is_Some (client_config a !! "closing_line").

(** [str.strip] on lines that carry no blank at either end. *)
Definition no_strip (line : string) : string := line.

(** The result after the given exchanges were added, one by one. *)
Definition add_entries (entries : list exchange) (r : TestResult) : TestResult :=
  fold_left
    (fun acc e => add_exchange (ex_user e) (ex_agent e) (ex_response_time e) acc)
    entries r.

(** The entry of the transcript that holds the greeting. *)
Definition greeting_entry (greeting : string) : exchange :=
  {| ex_user := "[greeting]"; ex_agent := greeting; ex_response_time := 0%Q |}.

(** What identifies a test: scenario, client and iteration. *)
Definition test_id (r : TestResult) : string * string * nat :=
  (scenario_name r, tr_client_key r, iteration r).

(** The tests of the matrix in the order of the three nested loops. *)
Definition planned_tests (clients : list string) (iterations : Z)
  : list (string * string * nat) :=
  flat_map
    (fun sc =>
       flat_map
         (fun key => map (fun it => (sc_name sc, key, it))
                       (seq 1 (Z.to_nat iterations)))
         clients)
    TEST_SCENARIOS.

(** The failed results of a scenario, in the order of the list. *)
Definition failed_in (name : string) (results : list TestResult) : list TestResult :=
  List.filter
    (fun r => negb (success r) && String.eqb (scenario_name r) name) results.

(** The results of a client, in the order of the list. *)
Definition results_of_client (key : string) (results : list TestResult)
  : list TestResult :=
  List.filter (fun r => String.eqb (tr_client_key r) key) results.

(** A session that has the given profile and nothing else. *)
Definition session_of_profile (profile : gmap string string) : agent :=
  {| client_key := EmptyString; client_config := profile;
     system_prompt := EmptyString; conversation_history := [];
     model := EmptyString |}.

(** The reply recorded for an identity challenge is the denial of the
    profile. *)
Definition answers_challenge (lower : string -> string)
    (profile : gmap string string) (e : exchange) : Prop :=
  is_robot_question lower (ex_user e) = true ->
  get_robot_response (session_of_profile profile) = inr (ex_agent e).

(** The session of the demonstration after [start], and after one exchange
    with the steady backend. *)
Definition demo_started : agent :=
  fst (snd (start (demo_agent, ([] : call_log)))).

Definition demo_conversed : agent :=
  fst (snd (generate_response steady_backend Str.ascii_lower demo_config
              "Bonjour." (demo_started, []))).

(** * Properties *)

(** ** Substrings *)

Module StrFacts.
Import Str.

Lemma append_assoc (a b c : string) : (a +:+ b) +:+ c = a +:+ (b +:+ c).
Proof.
  induction a as [|x a IH]; [reflexivity |].
  change (String x ((a +:+ b) +:+ c) = String x (a +:+ (b +:+ c))).
  now rewrite IH.
Qed.

Lemma startswith_append (p s : string) : startswith p (p +:+ s) = true.
Proof.
  induction p as [|a p IH]; simpl; [reflexivity |].
  now rewrite Ascii.eqb_refl.
Qed.

Lemma startswith_inv (p s : string) :
  startswith p s = true -> exists post, s = p +:+ post.
Proof.
  revert s. induction p as [|a p IH]; intros s H.
  - exists s. reflexivity.
  - destruct s as [|b s]; simpl in H; [discriminate |].
    destruct (Ascii.eqb a b) eqn:E; [| discriminate].
    apply Ascii.eqb_eq in E. subst b.
    destruct (IH _ H) as [post ->]. exists post. reflexivity.
Qed.

Lemma contains_here (n post : string) : contains n (n +:+ post) = true.
Proof.
  destruct (n +:+ post) eqn:E; simpl; rewrite <- E, startswith_append;
    reflexivity.
Qed.

Lemma contains_cons (n h : string) (c : Ascii.ascii) :
  contains n h = true -> contains n (String c h) = true.
Proof.
  intros H.
  change (contains n (String c h))
    with (if startswith n (String c h) then true else contains n h).
  destruct (startswith n (String c h)); [reflexivity | exact H].
Qed.

Lemma contains_append_l (n pre h : string) :
  contains n h = true -> contains n (pre +:+ h) = true.
Proof.
  intros H. induction pre as [|c pre IH]; simpl String.append; [exact H |].
  now apply contains_cons.
Qed.

(** [contains] decides [occurs_in]. *)
Lemma contains_occurs (n h : string) : contains n h = true <-> occurs_in n h.
Proof.
  split.
  - induction h as [|c h IH]; simpl; intros H.
    + destruct (startswith n EmptyString) eqn:E; [| discriminate].
      destruct (startswith_inv _ _ E) as [post Hp].
      exists EmptyString, post. exact Hp.
    + destruct (startswith n (String c h)) eqn:E.
      * destruct (startswith_inv _ _ E) as [post Hp].
        exists EmptyString, post. exact Hp.
      * destruct (IH H) as (pre & post & ->).
        exists (String c pre), post. reflexivity.
  - intros (pre & post & ->).
    apply contains_append_l, contains_here.
Qed.

Lemma occurs_here (n post : string) : occurs_in n (n +:+ post).
Proof. exists EmptyString, post. reflexivity. Qed.

Lemma occurs_append_l (n pre h : string) :
  occurs_in n h -> occurs_in n (pre +:+ h).
Proof.
  intros (a & b & ->). exists (pre +:+ a), b. now rewrite append_assoc.
Qed.

End StrFacts.

(** ** The prompt assembler *)

Lemma build_system_prompt_reads (c1 c2 : gmap string string) :
  (forall k, In k prompt_keys -> c1 !! k = c2 !! k) ->
  build_system_prompt c1 = build_system_prompt c2.
Proof.
  intros H. unfold build_system_prompt, Dict.subscript, Dict.get.
  rewrite (H "client_name"), (H "tone"), (H "formality_level"),
    (H "phrasing"), (H "closing_line"); [reflexivity | | | | |];
    unfold prompt_keys; simpl; tauto.
Qed.

(** With both required entries the assembly returns a text. *)
Lemma build_system_prompt_total (profile : gmap string string) :
  is_Some (profile !! "client_name") ->
  is_Some (profile !! "closing_line") ->
  exists prompt, build_system_prompt profile = inr prompt.
Proof.
  intros [n Hn] [c Hc]. unfold build_system_prompt, Dict.subscript.
  rewrite Hn, Hc. eexists. reflexivity.
Qed.

(** Without one of them it raises the [KeyError] of the first absent key. *)
Lemma build_system_prompt_key_error (profile : gmap string string) :
  profile !! "client_name" = None \/ profile !! "closing_line" = None ->
  exists key, build_system_prompt profile = inl (KeyError key)
              /\ profile !! key = None
              /\ (key = "client_name" \/ key = "closing_line").
Proof.
  intros H. unfold build_system_prompt, Dict.subscript.
  destruct (profile !! "client_name") as [n|] eqn:En.
  - destruct H as [H | H]; [discriminate |].
    exists "closing_line". rewrite H. simpl. auto.
  - exists "client_name". simpl. auto.
Qed.

(** C4.  For a profile that has both [client_name] and [closing_line],
    [build_system_prompt] returns a text; that text is a function of the five
    entries it reads (equal profiles give equal texts), and the value of
    [client_name] and the value of [closing_line] occur in it verbatim. *)
Theorem build_system_prompt_verbatim
    (profile : gmap string string) (name closing : string) :
  profile !! "client_name" = Some name ->
  profile !! "closing_line" = Some closing ->
  exists prompt,
    build_system_prompt profile = inr prompt
    /\ Str.occurs_in name prompt /\ Str.contains name prompt = true
    /\ Str.occurs_in closing prompt /\ Str.contains closing prompt = true
    /\ forall profile',
         (forall k, In k prompt_keys -> profile' !! k = profile !! k) ->
         build_system_prompt profile' = inr prompt.
Proof.
  intros Hn Hc.
  assert (E : exists prompt, build_system_prompt profile = inr prompt
                /\ Str.occurs_in name prompt /\ Str.occurs_in closing prompt).
  { unfold build_system_prompt, Dict.subscript. rewrite Hn, Hc.
    cbn [rbind Str.cat foldr]. eexists. split; [reflexivity |]. split.
    - apply StrFacts.occurs_append_l, StrFacts.occurs_here.
    - do 10 apply StrFacts.occurs_append_l. apply StrFacts.occurs_here. }
  destruct E as (prompt & E & On & Oc). exists prompt.
  repeat split; try assumption.
  - now apply StrFacts.contains_occurs.
  - now apply StrFacts.contains_occurs.
  - intros profile' H. rewrite <- E. now apply build_system_prompt_reads.
Qed.

Lemma build_system_prompt_verbatim_witness :
  exists prompt,
    build_system_prompt demo_profile = inr prompt
    /\ Str.occurs_in "Dell" prompt /\ Str.contains "Dell" prompt = true
    /\ Str.occurs_in "Merci et bonne journée." prompt
    /\ Str.contains "Merci et bonne journée." prompt = true
    /\ forall profile',
         (forall k, In k prompt_keys -> profile' !! k = demo_profile !! k) ->
         build_system_prompt profile' = inr prompt.
Proof.
  apply (build_system_prompt_verbatim demo_profile); reflexivity.
Defined.

(** C9.  When [client_name] or [closing_line] is absent from the profile,
    [build_system_prompt] raises the [KeyError] of the first absent key and
    produces no text. *)
Theorem build_system_prompt_missing (profile : gmap string string) :
  profile !! "client_name" = None \/ profile !! "closing_line" = None ->
  (exists key, build_system_prompt profile = inl (KeyError key)
               /\ profile !! key = None
               /\ (key = "client_name" \/ key = "closing_line"))
  /\ forall prompt, build_system_prompt profile <> inr prompt.
Proof.
  intros H. pose proof (build_system_prompt_key_error profile H) as E.
  split; [exact E |].
  destruct E as (key & E & _). intros prompt. rewrite E. discriminate.
Qed.

Lemma build_system_prompt_missing_witness :
  (exists key, build_system_prompt nameless_profile = inl (KeyError key)
               /\ nameless_profile !! key = None
               /\ (key = "client_name" \/ key = "closing_line"))
  /\ forall prompt, build_system_prompt nameless_profile <> inr prompt.
Proof.
  apply (build_system_prompt_missing nameless_profile). left. reflexivity.
Defined.

(** ** The session orchestrator *)

Lemma build_system_prompt_inr (profile : gmap string string) (prompt : string) :
  build_system_prompt profile = inr prompt ->
  is_Some (profile !! "client_name") /\ is_Some (profile !! "closing_line").
Proof.
  unfold build_system_prompt, Dict.subscript.
  destruct (profile !! "client_name"); [| discriminate].
  destruct (profile !! "closing_line"); [| discriminate].
  intros _. split; eexists; reflexivity.
Qed.

Lemma append_history_config (line : string) (a : agent) :
  client_config (append_history line a) = client_config a.
Proof. reflexivity. Qed.

Lemma append_history_history (line : string) (a : agent) :
  conversation_history (append_history line a) = conversation_history a ++ [line].
Proof. reflexivity. Qed.

Lemma after_exchange_history (user_message reply : string) (a : agent) :
  conversation_history (after_exchange user_message reply a)
  = conversation_history a ++ ["Client: " +:+ user_message; "Agent: " +:+ reply].
Proof.
  unfold after_exchange. rewrite !append_history_history, <- app_assoc.
  reflexivity.
Qed.

Section AgentFacts.

Context {Ext : Type}.
Variable generate_content : string -> Ext -> result string * Ext.
Variable lower : string -> string.
Variable CONFIG : config.
Variable DEFAULT_CLIENT : option string.

#[local] Abbreviation init := (FrenchDebtCollectionAgent_init CONFIG DEFAULT_CLIENT).
#[local] Abbreviation respond := (generate_response generate_content lower CONFIG).
#[local] Abbreviation is_robot := (is_robot_question lower).
#[local] Abbreviation reachable :=
  (reachable generate_content lower CONFIG DEFAULT_CLIENT).

Lemma init_has_name key a : init key = inr a -> has_name a.
Proof.
  unfold FrenchDebtCollectionAgent_init, rbind.
  destruct (resolve_client_key CONFIG DEFAULT_CLIENT key) as [e|k];
    [discriminate |].
  destruct (clients_lookup (CLIENTS CONFIG) k) as [profile|]; [| discriminate].
  destruct (build_system_prompt profile) as [e|prompt] eqn:E; [discriminate |].
  intros [= <-]. unfold has_name. simpl.
  now apply build_system_prompt_inr in E.
Qed.

Lemma get_robot_response_total a :
  has_name a -> exists reply, get_robot_response a = inr reply.
Proof.
  intros [n Hn]. unfold get_robot_response, Dict.subscript. rewrite Hn.
  eexists. reflexivity.
Qed.

Lemma get_greeting_total a :
  has_name a -> exists greeting, get_greeting a = inr greeting.
Proof.
  intros [n Hn]. unfold get_greeting, Dict.subscript. rewrite Hn.
  eexists. reflexivity.
Qed.

Lemma get_robot_response_append line a :
  get_robot_response (append_history line a) = get_robot_response a.
Proof. reflexivity. Qed.

(** The preset branch: the reply is the denial, the outside world is not
    touched. *)
Lemma respond_robot a ext msg reply :
  is_robot msg = true ->
  get_robot_response a = inr reply ->
  respond msg (a, ext) = (inr reply, (after_exchange msg reply a, ext)).
Proof.
  intros Hq Hr. unfold generate_response, bind, on_self, modify, ret.
  cbn [fst snd]. rewrite Hq. cbn [fst snd].
  rewrite get_robot_response_append, Hr. reflexivity.
Qed.

(** The generated branch, on a reply of the backend. *)
Lemma respond_backend_ok a ext msg text ext' :
  is_robot msg = false ->
  generate_content
    (full_prompt CONFIG (append_history ("Client: " +:+ msg) a)) ext
  = (inr text, ext') ->
  respond msg (a, ext) = (inr text, (after_exchange msg text a, ext')).
Proof.
  intros Hq Hb.
  unfold generate_response, bind, on_self, modify, ret, gets, try_except,
    call_backend.
  cbn [fst snd]. rewrite Hq. cbn [fst snd]. rewrite Hb. reflexivity.
Qed.

(** The generated branch, on an exception of the backend. *)
Lemma respond_backend_raises a ext msg e ext' :
  is_robot msg = false ->
  generate_content
    (full_prompt CONFIG (append_history ("Client: " +:+ msg) a)) ext
  = (inl e, ext') ->
  respond msg (a, ext)
  = (inr error_msg, (after_exchange msg error_msg a, ext')).
Proof.
  intros Hq Hb.
  unfold generate_response, bind, on_self, modify, ret, gets, try_except,
    call_backend.
  cbn [fst snd]. rewrite Hq. cbn [fst snd]. rewrite Hb. reflexivity.
Qed.

(** Every call on a named session returns, by one of the three branches. *)
Lemma respond_total a ext msg :
  has_name a ->
  exists reply ext',
    respond msg (a, ext) = (inr reply, (after_exchange msg reply a, ext'))
    /\ ((is_robot msg = true /\ get_robot_response a = inr reply /\ ext' = ext)
        \/ (is_robot msg = false
            /\ generate_content
                 (full_prompt CONFIG (append_history ("Client: " +:+ msg) a)) ext
               = (inr reply, ext'))
        \/ (is_robot msg = false /\ reply = error_msg
            /\ exists e,
                 generate_content
                   (full_prompt CONFIG (append_history ("Client: " +:+ msg) a)) ext
                 = (inl e, ext'))).
Proof.
  intros Hn. destruct (is_robot msg) eqn:Hq.
  - destruct (get_robot_response_total a Hn) as [reply Hr].
    exists reply, ext. split; [now apply respond_robot | left; auto].
  - destruct (generate_content
                (full_prompt CONFIG (append_history ("Client: " +:+ msg) a)) ext)
      as [[e|text] ext'] eqn:Hb.
    + exists error_msg, ext'. split; [now apply respond_backend_raises with e |].
      right; right. eauto.
    + exists text, ext'. split; [now apply respond_backend_ok |].
      right; left. auto.
Qed.

Lemma start_total a (ext : Ext) :
  has_name a ->
  exists greeting,
    start (a, ext) = (inr greeting, (append_history ("Agent: " +:+ greeting) a, ext)).
Proof.
  intros Hn. destruct (get_greeting_total a Hn) as [g Hg]. exists g.
  unfold start, bind, on_self, modify, ret. cbn [fst snd]. rewrite Hg.
  reflexivity.
Qed.

Lemma reachable_has_name a : reachable a -> has_name a.
Proof.
  induction 1 as [key a Hi | a ext out a' ext' _ IH Hs | a msg ext out a' ext' _ IH Hr].
  - now apply init_has_name with key.
  - destruct (start_total a ext IH) as [g Hg]. rewrite Hg in Hs.
    injection Hs as _ <- _. exact IH.
  - destruct (respond_total a ext msg IH) as (reply & e1 & Hg & _).
    rewrite Hg in Hr. injection Hr as _ <- _. exact IH.
Qed.

End AgentFacts.

(** ** The recent window *)

Lemma slice_from_neg_positive {A} (n : Z) (l : list A) :
  (0 < n)%Z ->
  Seq.slice_from (- n)%Z l = drop (length l - Z.to_nat n) l.
Proof.
  intros Hn. unfold Seq.slice_from.
  destruct (Z.ltb_spec (- n) 0) as [_ | H]; [| lia].
  f_equal. lia.
Qed.

Lemma slice_from_zero {A} (l : list A) : Seq.slice_from (- 0)%Z l = l.
Proof. unfold Seq.slice_from. simpl. rewrite Z.min_l by lia. reflexivity. Qed.

(** For a positive bound the window is the last turns of the history, in
    their order, and no more of them than the bound. *)
Lemma recent_window_last_turns (CONFIG : config) (history : list string) :
  (0 < MAX_HISTORY CONFIG)%Z ->
  let window := recent_window CONFIG history in
  (exists older, history = older ++ window)
  /\ length window = Nat.min (Z.to_nat (MAX_HISTORY CONFIG)) (length history).
Proof.
  intros Hn window. unfold window, recent_window.
  rewrite slice_from_neg_positive by exact Hn. split.
  - exists (take (length history - Z.to_nat (MAX_HISTORY CONFIG)) history).
    now rewrite take_drop.
  - rewrite length_drop. lia.
Qed.

(** ** Sessions *)

(** The constructor builds the session of the demonstrations. *)
Lemma demo_agent_init :
  FrenchDebtCollectionAgent_init demo_config None (Some "dell") = inr demo_agent.
Proof. vm_compute. reflexivity. Qed.

Lemma append_empty_r (text : string) : text +:+ EmptyString = text.
Proof.
  induction text as [|c text IH]; [reflexivity |].
  change (String c (text +:+ EmptyString) = String c text). now rewrite IH.
Qed.

(** The three pieces of a reply around the name of the client. *)
Lemma cat_around (before name after : string) :
  Str.cat [before; name; after] = before +:+ name +:+ after.
Proof. cbn [Str.cat foldr]. now rewrite append_empty_r. Qed.

(** The entry that a dictionary keyed by tone gives, tone by tone. *)
Lemma by_tone_decide (formal professional collaborative tone : string) :
  by_tone formal professional collaborative tone
  = if decide (tone = "formal") then formal
    else if decide (tone = "collaborative") then collaborative
    else professional.
Proof.
  unfold by_tone.
  destruct (String.eqb_spec tone "formal") as [E | E];
    [now rewrite decide_True | rewrite decide_False by exact E].
  destruct (String.eqb_spec tone "professional") as [E1 | E1].
  - subst tone. rewrite decide_False by discriminate. reflexivity.
  - destruct (String.eqb_spec tone "collaborative") as [E2 | E2];
      [now rewrite decide_True | now rewrite decide_False].
Qed.

Section SessionClaims.

Context {Ext : Type}.
Variable generate_content : string -> Ext -> result string * Ext.
Variable lower : string -> string.
Variable CONFIG : config.
Variable DEFAULT_CLIENT : option string.

#[local] Abbreviation respond := (generate_response generate_content lower CONFIG).
#[local] Abbreviation is_robot := (is_robot_question lower).
#[local] Abbreviation session :=
  (reachable generate_content lower CONFIG DEFAULT_CLIENT).

(** C1.  On every session and every user utterance [generate_response]
    returns a reply and raises nothing, whatever the backend does; when
    the backend raises, the reply is the fixed apology, appended to the
    history as the agent turn. *)
Theorem generate_response_never_raises (a : agent) (msg : string) (ext : Ext) :
  session a ->
  (exists reply st, respond msg (a, ext) = (inr reply, st))
  /\ (forall e ext',
        is_robot msg = false ->
        generate_content
          (full_prompt CONFIG (append_history ("Client: " +:+ msg) a)) ext
        = (inl e, ext') ->
        respond msg (a, ext)
        = (inr error_msg, (after_exchange msg error_msg a, ext'))
        /\ conversation_history (after_exchange msg error_msg a)
           = conversation_history a
             ++ ["Client: " +:+ msg; "Agent: " +:+ error_msg]).
Proof.
  intros Ha. apply reachable_has_name in Ha. split.
  - destruct (respond_total generate_content lower CONFIG a ext msg Ha)
      as (reply & ext' & E & _).
    exists reply. eexists. exact E.
  - intros e ext' Hq Hb. split.
    + now apply respond_backend_raises with e.
    + apply after_exchange_history.
Qed.

(** C10.  One call of [generate_response] on a session appends two
    entries to the history, the user turn and then the agent turn, keeps
    the entries recorded before, changes nothing else of the session, and
    returns the text of the agent turn; the reply is the preset denial,
    the text of the backend, or the apology. *)
Theorem generate_response_appends_exchange (a : agent) (msg : string) (ext : Ext) :
  session a ->
  exists reply a' ext',
    respond msg (a, ext) = (inr reply, (a', ext'))
    /\ conversation_history a'
       = conversation_history a ++ ["Client: " +:+ msg; "Agent: " +:+ reply]
    /\ length (conversation_history a') = (length (conversation_history a) + 2)%nat
    /\ take (length (conversation_history a)) (conversation_history a')
       = conversation_history a
    /\ client_key a' = client_key a /\ client_config a' = client_config a
    /\ system_prompt a' = system_prompt a /\ model a' = model a
    /\ ((is_robot msg = true /\ get_robot_response a = inr reply /\ ext' = ext)
        \/ (is_robot msg = false
            /\ generate_content
                 (full_prompt CONFIG (append_history ("Client: " +:+ msg) a)) ext
               = (inr reply, ext'))
        \/ (is_robot msg = false /\ reply = error_msg
            /\ exists e,
                 generate_content
                   (full_prompt CONFIG (append_history ("Client: " +:+ msg) a)) ext
                 = (inl e, ext'))).
Proof.
  intros Ha. apply reachable_has_name in Ha.
  destruct (respond_total generate_content lower CONFIG a ext msg Ha)
    as (reply & ext' & E & Hbranch).
  exists reply, (after_exchange msg reply a), ext'.
  rewrite after_exchange_history.
  repeat split; try reflexivity; try assumption.
  - rewrite length_app. reflexivity.
  - now rewrite take_app_length.
Qed.

(** C5.  [is_robot_question] holds of a text exactly when its lowered form
    contains one of the thirteen fixed phrases, so that the case of the
    letters does not count: it holds of the English robot question, in small
    letters and in capitals, and not of the payment sentence.  When it holds
    of the utterance of a session, [generate_response] returns the denial
    preset for the tone of the profile, formal, collaborative or otherwise
    professional, with the name of the client in it; it appends the user
    turn and that denial to the history, and leaves the outside world as it
    was, whatever the backend is. *)
Theorem identity_challenge_short_circuits :
  (forall s, Str.is_ascii s = true -> lower s = Str.ascii_lower s) ->
  (is_robot "Are you a robot?" = true
   /\ is_robot "ARE YOU A ROBOT?" = true
   /\ is_robot "I can pay tomorrow." = false)
  /\ (forall text,
        is_robot text = true
        <-> exists phrase,
              In phrase ["êtes-vous un robot"; "vous êtes un robot";
                         "c'est un robot"; "automated"; "automatisé";
                         "intelligence artificielle"; "ia?"; "chatbot";
                         "bot?"; "real person"; "vraie personne"; "human";
                         "humain"]
              /\ Str.occurs_in phrase (lower text))
  /\ (forall (other_backend : string -> Ext -> result string * Ext)
             (a : agent) (msg : string) (ext : Ext),
        session a ->
        is_robot msg = true ->
        exists name,
          client_config a !! "client_name" = Some name
          /\ let tone := default "professional" (client_config a !! "tone") in
             let denial :=
               if decide (tone = "formal") then
                 "Non, je suis un conseiller professionnel de " +:+ name
                 +:+ ". Je suis ici pour vous aider avec votre compte. Comment puis-je vous assister?"
               else if decide (tone = "collaborative") then
                 "Non, absolument! Je suis une personne réelle de " +:+ name
                 +:+ ". Je suis ici pour trouver une solution avec vous. Comment je peux vous aider?"
               else
                 "Non, je suis un vrai conseiller de " +:+ name
                 +:+ ". Je suis là pour discuter de votre compte. Comment puis-je vous aider?" in
             respond msg (a, ext)
             = (inr denial, (after_exchange msg denial a, ext))
             /\ conversation_history (after_exchange msg denial a)
                = conversation_history a
                  ++ ["Client: " +:+ msg; "Agent: " +:+ denial]
             /\ generate_response other_backend lower CONFIG msg (a, ext)
                = (inr denial, (after_exchange msg denial a, ext))).
Proof.
  intros Hlow. split; [| split].
  - repeat split; unfold is_robot_question; rewrite Hlow by reflexivity;
      vm_compute; reflexivity.
  - intros text. unfold is_robot_question, Str.contains_any, robot_keywords.
    rewrite existsb_exists. split.
    + intros (phrase & Hin & Hc). exists phrase. split; [exact Hin |].
      now apply StrFacts.contains_occurs.
    + intros (phrase & Hin & Ho). exists phrase. split; [exact Hin |].
      now apply StrFacts.contains_occurs.
  - intros other_backend a msg ext Ha Hq.
    apply reachable_has_name in Ha. destruct Ha as [name Hn].
    exists name. split; [exact Hn |]. cbv zeta.
    match goal with
    | |- respond msg (a, ext) = (inr ?d, _) /\ _ => set (denial := d)
    end.
    assert (Hd : get_robot_response a = inr denial).
    { unfold get_robot_response, Dict.subscript, Dict.get. rewrite Hn.
      cbn [rbind]. rewrite by_tone_decide, !cat_around. reflexivity. }
    split; [now apply respond_robot |].
    split; [apply after_exchange_history | now apply respond_robot].
Qed.

End SessionClaims.

Lemma generate_response_never_raises_witness :
  (exists reply st,
      generate_response failing_backend Str.ascii_lower demo_config "Bonjour."
        (demo_agent, []) = (inr reply, st))
  /\ (forall e ext',
        is_robot_question Str.ascii_lower "Bonjour." = false ->
        failing_backend
          (full_prompt demo_config
             (append_history ("Client: " +:+ "Bonjour.") demo_agent)) []
        = (inl e, ext') ->
        generate_response failing_backend Str.ascii_lower demo_config "Bonjour."
          (demo_agent, [])
        = (inr error_msg, (after_exchange "Bonjour." error_msg demo_agent, ext'))
        /\ conversation_history (after_exchange "Bonjour." error_msg demo_agent)
           = conversation_history demo_agent
             ++ ["Client: " +:+ "Bonjour."; "Agent: " +:+ error_msg]).
Proof.
  apply (generate_response_never_raises failing_backend Str.ascii_lower
           demo_config None demo_agent "Bonjour." []).
  apply reach_init with (Some "dell"). vm_compute. reflexivity.
Defined.

Lemma generate_response_appends_exchange_witness :
  exists reply a' ext',
    generate_response steady_backend Str.ascii_lower demo_config
      "Je peux payer demain." (demo_agent, []) = (inr reply, (a', ext'))
    /\ conversation_history a'
       = conversation_history demo_agent
         ++ ["Client: " +:+ "Je peux payer demain."; "Agent: " +:+ reply]
    /\ length (conversation_history a')
       = (length (conversation_history demo_agent) + 2)%nat
    /\ take (length (conversation_history demo_agent)) (conversation_history a')
       = conversation_history demo_agent
    /\ client_key a' = client_key demo_agent
    /\ client_config a' = client_config demo_agent
    /\ system_prompt a' = system_prompt demo_agent
    /\ model a' = model demo_agent
    /\ ((is_robot_question Str.ascii_lower "Je peux payer demain." = true
         /\ get_robot_response demo_agent = inr reply /\ ext' = [])
        \/ (is_robot_question Str.ascii_lower "Je peux payer demain." = false
            /\ steady_backend
                 (full_prompt demo_config
                    (append_history ("Client: " +:+ "Je peux payer demain.")
                       demo_agent)) []
               = (inr reply, ext'))
        \/ (is_robot_question Str.ascii_lower "Je peux payer demain." = false
            /\ reply = error_msg
            /\ exists e,
                 steady_backend
                   (full_prompt demo_config
                      (append_history ("Client: " +:+ "Je peux payer demain.")
                         demo_agent)) []
                 = (inl e, ext'))).
Proof.
  apply (generate_response_appends_exchange steady_backend Str.ascii_lower
           demo_config None demo_agent "Je peux payer demain." []).
  apply reach_init with (Some "dell"). vm_compute. reflexivity.
Defined.

Lemma identity_challenge_short_circuits_witness :
  (is_robot_question Str.ascii_lower "Are you a robot?" = true
   /\ is_robot_question Str.ascii_lower "ARE YOU A ROBOT?" = true
   /\ is_robot_question Str.ascii_lower "I can pay tomorrow." = false)
  /\ generate_response failing_backend Str.ascii_lower demo_config
       "Are you a robot?" (demo_agent, [])
     = (inr "Non, je suis un conseiller professionnel de Dell. Je suis ici pour vous aider avec votre compte. Comment puis-je vous assister?",
        (after_exchange "Are you a robot?"
           "Non, je suis un conseiller professionnel de Dell. Je suis ici pour vous aider avec votre compte. Comment puis-je vous assister?"
           demo_agent,
         [])).
Proof.
  destruct (identity_challenge_short_circuits failing_backend Str.ascii_lower
              demo_config None (fun s _ => eq_refl))
    as (Hexamples & _ & Hrun).
  split; [exact Hexamples |].
  destruct (Hrun steady_backend demo_agent "Are you a robot?" [])
    as (name & Hn & Hr & _).
  - apply reach_init with (Some "dell"). vm_compute. reflexivity.
  - vm_compute. reflexivity.
  - vm_compute in Hn. injection Hn as <-. exact Hr.
Defined.

(** ** The history bound at zero *)

(** C2.  With a configured bound of zero the slice [history[-0:]] is the
    whole history: the window keeps every turn, and the second prompt of the
    demonstration carries all four turns recorded so far, where the bound
    allows none. *)
Theorem zero_max_history_sends_every_turn :
  MAX_HISTORY zero_history_config = 0%Z
  /\ (forall history : list string,
        recent_window zero_history_config history = history)
  /\ FrenchDebtCollectionAgent_init zero_history_config None (Some "dell")
     = inr demo_agent
  /\ map fst (snd (snd zero_bound_run))
     = [Str.cat [system_prompt demo_agent; history_header;
                 Str.join Str.nl (take 2 zero_bound_turns); instruction_footer];
        Str.cat [system_prompt demo_agent; history_header;
                 Str.join Str.nl zero_bound_turns; instruction_footer]]
  /\ (Z.of_nat (length (recent_window zero_history_config zero_bound_turns))
      > MAX_HISTORY zero_history_config)%Z.
Proof.
  split; [reflexivity |]. split; [intros history; apply slice_from_zero |].
  split; [vm_compute; reflexivity |]. split; [vm_compute; reflexivity |].
  vm_compute. reflexivity.
Qed.

(** The turn sequence only grows: [start] appends the greeting. *)
Lemma start_appends (a : agent) {Ext : Type} (ext : Ext) :
  has_name a ->
  exists greeting a',
    start (a, ext) = (inr greeting, (a', ext))
    /\ conversation_history a' = conversation_history a ++ ["Agent: " +:+ greeting].
Proof.
  intros Hn. destruct (start_total a ext Hn) as [g Hg].
  exists g. eexists. split; [exact Hg | reflexivity].
Qed.

(** ** Loading the configuration *)

(** C8, as stated, fails: the document holds a profile without
    [client_name], and [load_config] returns it all the same. *)
Lemma load_config_accepts_incomplete_profile :
  clients_lookup (CLIENTS incomplete_config) "acme" = Some nameless_profile
  /\ profile_complete nameless_profile = false
  /\ load_config demo_fs "./config.yaml" = inr incomplete_config
  /\ ~ (exists e, load_config demo_fs "./config.yaml" = inl e).
Proof.
  split; [reflexivity |]. split; [vm_compute; reflexivity |].
  split; [reflexivity |]. intros [e He]. discriminate He.
Qed.

(** C8, amended.  [load_config] checks no profile: it returns the document
    of an existing file as parsed.  A profile that lacks [client_name] or
    [closing_line] makes the constructor of a session for that client raise
    the [KeyError] of the absent key, so that no session exists on which
    [start] or [generate_response] could be called; the clients of the same
    document whose profiles are complete are constructed normally. *)
Theorem incomplete_profile_fails_at_construction
    (fs : string -> option config) (path : string) (doc : config)
    (dflt : option string) (key : string) (profile : gmap string string) :
  fs path = Some doc ->
  clients_lookup (CLIENTS doc) key = Some profile ->
  profile !! "client_name" = None \/ profile !! "closing_line" = None ->
  load_config fs path = inr doc
  /\ (exists k, FrenchDebtCollectionAgent_init doc dflt (Some key) = inl (KeyError k)
                /\ profile !! k = None
                /\ (k = "client_name" \/ k = "closing_line"))
  /\ (forall a, FrenchDebtCollectionAgent_init doc dflt (Some key) <> inr a)
  /\ (forall key' profile',
        clients_lookup (CLIENTS doc) key' = Some profile' ->
        profile_complete profile' = true ->
        exists a, FrenchDebtCollectionAgent_init doc dflt (Some key') = inr a).
Proof.
  intros Hfs Hk Hmiss.
  assert (E : exists k, FrenchDebtCollectionAgent_init doc dflt (Some key)
                        = inl (KeyError k)
                /\ profile !! k = None
                /\ (k = "client_name" \/ k = "closing_line")).
  { destruct (build_system_prompt_key_error profile Hmiss) as (k & Ek & Hn & Hor).
    exists k. unfold FrenchDebtCollectionAgent_init. simpl. rewrite Hk, Ek. auto. }
  split; [unfold load_config; now rewrite Hfs |]. split; [exact E |]. split.
  - destruct E as (k & E & _). intros a. rewrite E. discriminate.
  - intros key' profile' Hk' Hc. unfold profile_complete in Hc.
    apply andb_true_iff in Hc. destruct Hc as [H1 H2].
    apply bool_decide_eq_true in H1, H2.
    destruct (build_system_prompt_total profile' H1 H2) as (p & Ep).
    unfold FrenchDebtCollectionAgent_init. simpl. rewrite Hk', Ep. simpl.
    eexists. reflexivity.
Qed.

Lemma incomplete_profile_fails_at_construction_witness :
  load_config demo_fs "./config.yaml" = inr incomplete_config
  /\ (exists k, FrenchDebtCollectionAgent_init incomplete_config None (Some "acme")
                = inl (KeyError k)
                /\ nameless_profile !! k = None
                /\ (k = "client_name" \/ k = "closing_line"))
  /\ (forall a, FrenchDebtCollectionAgent_init incomplete_config None (Some "acme")
                <> inr a)
  /\ (forall key' profile',
        clients_lookup (CLIENTS incomplete_config) key' = Some profile' ->
        profile_complete profile' = true ->
        exists a, FrenchDebtCollectionAgent_init incomplete_config None (Some key')
                  = inr a).
Proof.
  apply (incomplete_profile_fails_at_construction demo_fs "./config.yaml"
           incomplete_config None "acme" nameless_profile).
  - reflexivity.
  - reflexivity.
  - left. reflexivity.
Defined.

(** ** The evaluation harness: one test *)

Section HarnessFacts.

Context {Ext : Type}.
Variable generate_content : string -> Ext -> result string * Ext.
Variable time_time : Ext -> Q * Ext.
Variable lower : string -> string.
Variable CONFIG : config.
Variable DEFAULT_CLIENT : option string.

#[local] Abbreviation init := (FrenchDebtCollectionAgent_init CONFIG DEFAULT_CLIENT).
#[local] Abbreviation respond := (generate_response generate_content lower CONFIG).
#[local] Abbreviation converse :=
  (run_conversation generate_content time_time lower CONFIG).
#[local] Abbreviation run_test :=
  (run_single_test generate_content time_time lower CONFIG DEFAULT_CLIENT).

(** One round of the loop: two readings of the clock around the call. *)
Lemma run_conversation_cons a msg rest (r : TestResult) (ext : Ext) :
  has_name a ->
  exists reply latency ext',
    converse a (msg :: rest) (r, ext)
    = converse (after_exchange msg reply a) rest
        (add_exchange msg reply latency r, ext').
Proof.
  intros Hn. cbn [run_conversation].
  unfold bind at 1. unfold read_clock at 1. cbn [fst snd].
  destruct (time_time ext) as [t0 e1].
  unfold bind at 1. unfold with_agent at 1. cbn [fst snd].
  destruct (respond_total generate_content lower CONFIG a e1 msg Hn)
    as (reply & e2 & E & _).
  rewrite E.
  unfold bind at 1. unfold read_clock at 1. cbn [fst snd].
  destruct (time_time e2) as [t1 e3].
  unfold bind at 1. unfold on_result, modify. cbn [fst snd].
  exists reply, (t1 - t0)%Q, e3. reflexivity.
Qed.

(** The loop never raises; it extends the transcript and leaves the error
    message of the result as it was. *)
Lemma run_conversation_total msgs :
  forall a (r : TestResult) (ext : Ext),
    has_name a ->
    exists a' r' ext' entries,
      converse a msgs (r, ext) = (inr a', (r', ext'))
      /\ error_message r' = error_message r
      /\ conversation r' = conversation r ++ entries.
Proof.
  induction msgs as [|msg rest IH]; intros a r ext Hn.
  - exists a, r, ext, []. cbn. rewrite app_nil_r. auto.
  - destruct (run_conversation_cons a msg rest r ext Hn)
      as (reply & latency & e1 & E).
    destruct (IH (after_exchange msg reply a) (add_exchange msg reply latency r) e1)
      as (a' & r' & ext' & entries & E' & He & Hc); [exact Hn |].
    exists a', r', ext'. eexists. rewrite E, E'.
    split; [reflexivity |]. split; [exact He |].
    rewrite Hc. cbn [conversation add_exchange]. rewrite <- app_assoc. reflexivity.
Qed.

(** A test whose session cannot be constructed: the handler records the
    message of the exception, and the result is not finalized. *)
Lemma run_single_test_not_constructed sc key it (ext : Ext) e :
  init (Some key) = inl e ->
  run_test sc key it ext
  = (set_error (str_of_exn e) (TestResult_init (sc_name sc) key it), ext).
Proof.
  intros Hi. unfold run_single_test, try_except, run_single_test_body.
  unfold bind at 1. unfold lift_result at 1. rewrite Hi. reflexivity.
Qed.

(** A test whose session is constructed runs to [finalize]. *)
Lemma run_single_test_constructed sc key it (ext : Ext) a :
  init (Some key) = inr a ->
  exists r ext' entry,
    run_test sc key it ext = (r, ext')
    /\ success r = true
    /\ error_message r = None
    /\ last (conversation r) = Some entry
    /\ properly_closed r
       = Str.contains_any closing_indicators (lower (ex_agent entry)).
Proof.
  intros Hi.
  assert (Hn : has_name a) by (now apply init_has_name in Hi).
  unfold run_single_test, try_except, run_single_test_body.
  unfold bind at 1. unfold lift_result at 1. rewrite Hi.
  unfold bind at 1. unfold with_agent at 1. cbn [fst snd].
  destruct (start_total a ext Hn) as [g Hg]. rewrite Hg.
  unfold bind at 1. unfold on_result at 1, modify at 1. cbn [fst snd].
  set (a1 := append_history ("Agent: " +:+ g) a).
  set (r1 := append_conversation _ _).
  destruct (run_conversation_total (sc_conversation sc) a1 r1 ext Hn)
    as (a' & r' & ext' & entries & E & He & Hc).
  unfold bind at 1. rewrite E.
  unfold bind at 1. unfold gets at 1. cbn [fst snd].
  assert (Hlast : exists entry, last (conversation r') = Some entry).
  { rewrite Hc. unfold r1. cbn [conversation append_conversation TestResult_init].
    cbn [app]. destruct entries as [|x xs _] using rev_ind.
    - eexists. reflexivity.
    - eexists. rewrite app_comm_cons, last_snoc. reflexivity. }
  destruct Hlast as [entry Hl].
  unfold bind at 1. unfold lift_result at 1, Seq.last_item. rewrite Hl.
  unfold bind, on_result, modify, gets. cbn [fst snd].
  eexists _, ext', entry. split; [reflexivity |].
  cbn [success error_message conversation properly_closed finalize
         set_properly_closed].
  rewrite He. unfold r1. cbn [error_message append_conversation TestResult_init].
  auto.
Qed.

(** The closing flag of every result of [run_single_test] says whether the
    last agent utterance of its transcript holds a closing indicator. *)
Lemma run_single_test_closed sc key it (ext : Ext) :
  properly_closed (fst (run_test sc key it ext))
  = final_utterance_closes lower (fst (run_test sc key it ext)).
Proof.
  destruct (init (Some key)) as [e|a] eqn:Hi.
  - rewrite (run_single_test_not_constructed sc key it ext e Hi). reflexivity.
  - destruct (run_single_test_constructed sc key it ext a Hi)
      as (r & ext' & entry & E & _ & _ & Hl & Hp).
    rewrite E. cbn [fst]. unfold final_utterance_closes. rewrite Hl. exact Hp.
Qed.

End HarnessFacts.

(** ** The success flag *)

(** C3, as stated, fails: during an outage the backend raises in each of
    the five turns, every reply is the apology, and the finalized result
    still has its success flag set. *)
Lemma outage_run_succeeds :
  head TEST_SCENARIOS = Some scenario_agrees_to_pay
  /\ success (fst outage_run) = true
  /\ map snd (snd outage_run)
     = replicate 5 (inl (BackendError "503 Service Unavailable"))
  /\ map ex_agent (drop 1 (conversation (fst outage_run)))
     = replicate 5 error_msg
  /\ backend_raised (snd outage_run)
  /\ ~ (success (fst outage_run) = true <-> ~ backend_raised (snd outage_run)).
Proof.
  assert (Hs : success (fst outage_run) = true) by (vm_compute; reflexivity).
  assert (Hr : backend_raised (snd outage_run)).
  { unfold backend_raised.
    destruct (snd outage_run) as [|[prompt outcome] rest] eqn:E;
      [vm_compute in E; discriminate E |].
    exists prompt, (BackendError "503 Service Unavailable").
    assert (Ho : outcome = inl (BackendError "503 Service Unavailable")).
    { assert (H : map snd (snd outage_run)
                  = replicate 5 (inl (BackendError "503 Service Unavailable")))
        by (vm_compute; reflexivity).
      rewrite E in H. cbn in H. now injection H. }
    rewrite Ho. left. reflexivity. }
  split; [reflexivity |]. split; [exact Hs |].
  split; [vm_compute; reflexivity |]. split; [vm_compute; reflexivity |].
  split; [exact Hr |]. intros [H _]. exact (H Hs Hr).
Qed.

Section HarnessClaims.

Context {Ext : Type}.
Variable generate_content : string -> Ext -> result string * Ext.
Variable time_time : Ext -> Q * Ext.
Variable lower : string -> string.
Variable CONFIG : config.
Variable DEFAULT_CLIENT : option string.

#[local] Abbreviation init := (FrenchDebtCollectionAgent_init CONFIG DEFAULT_CLIENT).
#[local] Abbreviation run_test :=
  (run_single_test generate_content time_time lower CONFIG DEFAULT_CLIENT).

(** C3, amended.  The success flag of the result of [run_single_test] is set
    exactly when no exception reached the harness, that is when the session
    was constructed; it is then set whatever the backend did during the
    turns, since [generate_response] turns a failure of the backend into the
    apology.  [finalize] sets the flag from the absence of an error message
    alone: the closing flag it is given has no part in it. *)
Theorem success_iff_no_exception_reached_harness
    (sc : scenario) (key : string) (it : nat) (ext : Ext) :
  let r := fst (run_test sc key it ext) in
  (success r = true <-> exists a, init (Some key) = inr a)
  /\ (success r = true <-> error_message r = None)
  /\ (forall e, init (Some key) = inl e ->
                r = set_error (str_of_exn e) (TestResult_init (sc_name sc) key it))
  /\ (forall closed r0,
        success (finalize closed r0) = true <-> error_message r0 = None)
  /\ (forall closed closed' r0,
        success (finalize closed r0) = success (finalize closed' r0)).
Proof.
  intros r. subst r.
  split; [| split; [| split; [| split]]].
  - destruct (init (Some key)) as [e|a] eqn:Hi.
    + rewrite (run_single_test_not_constructed _ _ _ _ _ sc key it ext e Hi).
      cbn. split; [discriminate | intros [a Ha]; discriminate Ha].
    + destruct (run_single_test_constructed
                  generate_content time_time lower CONFIG DEFAULT_CLIENT
                  sc key it ext a Hi) as (r & ext' & entry & E & Hs & _).
      rewrite E. cbn [fst]. split; [eauto | intros _; exact Hs].
  - destruct (init (Some key)) as [e|a] eqn:Hi.
    + rewrite (run_single_test_not_constructed _ _ _ _ _ sc key it ext e Hi).
      cbn. split; discriminate.
    + destruct (run_single_test_constructed
                  generate_content time_time lower CONFIG DEFAULT_CLIENT
                  sc key it ext a Hi) as (r & ext' & entry & E & Hs & He & _).
      rewrite E. cbn [fst]. split; auto.
  - intros e Hi.
    now rewrite (run_single_test_not_constructed _ _ _ _ _ sc key it ext e Hi).
  - intros closed r0. cbn. destruct (error_message r0); split; congruence.
  - reflexivity.
Qed.

End HarnessClaims.

(** ** Latency statistics *)

Module StatsFacts.
Import Stats.

Lemma insert_sorted_perm (x : Q) (l : list Q) :
  Permutation (insert_sorted x l) (x :: l).
Proof.
  induction l as [|y l IH]; simpl; [reflexivity |].
  destruct (Qle_bool x y); [reflexivity |].
  rewrite IH. apply perm_swap.
Qed.

Lemma sorted_perm (l : list Q) : Permutation (sorted l) l.
Proof.
  induction l as [|x l IH]; simpl; [reflexivity |].
  rewrite insert_sorted_perm. now constructor.
Qed.

Lemma sorted_length (l : list Q) : length (sorted l) = length l.
Proof. apply Permutation_length, sorted_perm. Qed.

Lemma sorted_In (l : list Q) (x : Q) : In x (sorted l) <-> In x l.
Proof.
  split; apply Permutation_in; [| symmetry]; apply sorted_perm.
Qed.

Lemma insert_sorted_ascending (x : Q) (l : list Q) :
  StronglySorted Qle l -> StronglySorted Qle (insert_sorted x l).
Proof.
  induction 1 as [|y l Hs IH Hy]; simpl.
  - repeat constructor.
  - destruct (Qle_bool x y) eqn:E.
    + apply Qle_bool_iff in E. constructor; [now constructor |].
      constructor; [exact E |].
      eapply Forall_impl; [exact Hy |]. intros z Hz. cbn in Hz |- *.
      now apply Qle_trans with y.
    + assert (Hyx : (y <= x)%Q).
      { apply Qlt_le_weak, Qnot_le_lt. intros H.
        apply Qle_bool_iff in H. congruence. }
      constructor; [exact IH |].
      apply List.Forall_forall. intros z Hz.
      apply (Permutation_in _ (insert_sorted_perm x l)) in Hz.
      destruct Hz as [<- | Hz]; [exact Hyx |].
      rewrite List.Forall_forall in Hy. now apply Hy.
Qed.

Lemma sorted_ascending (l : list Q) : StronglySorted Qle (sorted l).
Proof.
  induction l as [|x l IH]; simpl; [constructor |].
  now apply insert_sorted_ascending.
Qed.

(** The last item of an ascending list bounds every item. *)
Lemma ascending_last_bound (l : list Q) :
  StronglySorted Qle l ->
  forall x, In x l -> (x <= nth (length l - 1) l 0)%Q.
Proof.
  induction 1 as [|a l Hs IH Ha]; intros x Hx; [destruct Hx |].
  destruct l as [|b l].
  - destruct Hx as [<- | []]. apply Qle_refl.
  - set (L := b :: l) in *.
    assert (HL : (0 < length L)%nat) by (subst L; simpl; lia).
    replace (length (a :: L) - 1)%nat with (S (length L - 1)) by (simpl; lia).
    change (nth (S (length L - 1)) (a :: L) 0%Q) with (nth (length L - 1) L 0%Q).
    destruct Hx as [<- | Hx]; [| now apply IH].
    rewrite List.Forall_forall in Ha. apply Ha. apply nth_In. lia.
Qed.

Lemma max_step_ge_cur (cur x : Q) : (cur <= max_step cur x)%Q.
Proof.
  unfold max_step. destruct (Qle_bool x cur) eqn:E; [apply Qle_refl |].
  apply Qlt_le_weak, Qnot_le_lt. intros H. apply Qle_bool_iff in H. congruence.
Qed.

Lemma max_step_ge_item (cur x : Q) : (x <= max_step cur x)%Q.
Proof.
  unfold max_step. destruct (Qle_bool x cur) eqn:E;
    [now apply Qle_bool_iff | apply Qle_refl].
Qed.

Lemma max_of_ge_first (rest : list Q) :
  forall first, (first <= max_of first rest)%Q.
Proof.
  unfold max_of. induction rest as [|x rest IH]; intros first; simpl.
  - apply Qle_refl.
  - eapply Qle_trans; [apply (max_step_ge_cur first x) | apply IH].
Qed.

(** [max] bounds every item of the sample, and is one of its items. *)
Lemma max_of_upper (rest : list Q) :
  forall first x, In x (first :: rest) -> (x <= max_of first rest)%Q.
Proof.
  induction rest as [|y rest IH]; intros first x Hx.
  - destruct Hx as [<- | []]. apply Qle_refl.
  - change (max_of first (y :: rest)) with (max_of (max_step first y) rest).
    destruct Hx as [<- | [<- | Hx]].
    + eapply Qle_trans; [apply (max_step_ge_cur first y) | apply max_of_ge_first].
    + eapply Qle_trans; [apply (max_step_ge_item first y) | apply max_of_ge_first].
    + apply IH. now right.
Qed.

Lemma max_of_In (rest : list Q) :
  forall first, In (max_of first rest) (first :: rest).
Proof.
  induction rest as [|y rest IH]; intros first; [now left |].
  change (max_of first (y :: rest)) with (max_of (max_step first y) rest).
  destruct (IH (max_step first y)) as [H | H].
  - rewrite <- H. unfold max_step. destruct (Qle_bool y first); simpl; auto.
  - right. now right.
Qed.

Lemma inject_nat_succ (n : nat) :
  (inject_Z (Z.of_nat (S n)) == inject_Z (Z.of_nat n) + 1)%Q.
Proof. rewrite Nat2Z.inj_succ, <- Z.add_1_r, inject_Z_plus. reflexivity. Qed.

Lemma fold_sum_bound (m : Q) (l : list Q) :
  (forall x, In x l -> (x <= m)%Q) ->
  forall acc, (fold_left Qplus l acc <= acc + inject_Z (Z.of_nat (length l)) * m)%Q.
Proof.
  induction l as [|x l IH]; intros Hb acc.
  - simpl. rewrite Qmult_0_l, Qplus_0_r. apply Qle_refl.
  - cbn [fold_left length]. rewrite inject_nat_succ.
    eapply Qle_trans; [apply IH; intros z Hz; apply Hb; now right |].
    assert (Hx : (x <= m)%Q) by (apply Hb; now left).
    generalize (inject_Z (Z.of_nat (length l))). intros k. lra.
Qed.

(** The mean of a non-empty sample is at most any bound of its items. *)
Lemma mean_le_bound (m : Q) (l : list Q) :
  (0 < length l)%nat ->
  (forall x, In x l -> (x <= m)%Q) ->
  (mean l <= m)%Q.
Proof.
  intros Hlen Hb. unfold mean, sum_times.
  apply Qle_shift_div_r.
  - change 0%Q with (inject_Z 0). rewrite <- Zlt_Qlt. lia.
  - eapply Qle_trans; [apply (fold_sum_bound m l Hb) |].
    rewrite Qplus_0_l, Qmult_comm. apply Qle_refl.
Qed.

Lemma p95_index_lt (n : nat) : (0 < n)%nat -> (p95_index n < n)%nat.
Proof.
  intros Hn. unfold p95_index. apply Nat.Div0.div_lt_upper_bound. lia.
Qed.

(** On every sample of fewer than two thousand latencies the index taken on
    the integers is the index Python computes on floats. *)
Example p95_index_agrees_with_float :
  forallb (fun n => Z.eqb (float_index n) (Z.of_nat (p95_index n))) (seq 0 2000)
  = true.
Proof. vm_compute. reflexivity. Qed.

(** Up to twenty items the index is the last one. *)
Lemma p95_index_small (n : nat) :
  (1 <= n <= 20)%nat -> p95_index n = (n - 1)%nat.
Proof.
  intros Hn. unfold p95_index. symmetry.
  apply Nat.div_unique with (r := (n * 95 - (n - 1) * 100)%nat); lia.
Qed.

End StatsFacts.

(** ** The aggregated latencies *)

Lemma p95_of_nth (l : list Q) :
  (0 < length l)%nat ->
  p95_of l = nth (Stats.p95_index (length l)) (Stats.sorted l) 0%Q.
Proof. destruct l; simpl length; [lia | reflexivity]. Qed.

Lemma p95_of_In (l : list Q) : (0 < length l)%nat -> In (p95_of l) l.
Proof.
  intros Hl. rewrite (p95_of_nth l Hl). apply StatsFacts.sorted_In, nth_In.
  rewrite StatsFacts.sorted_length. now apply StatsFacts.p95_index_lt.
Qed.

Lemma max_time_of_upper (l : list Q) (x : Q) :
  In x l -> (x <= max_time_of l)%Q.
Proof.
  destruct l as [|y l]; [intros [] |]. apply StatsFacts.max_of_upper.
Qed.

Lemma max_time_of_In (l : list Q) : (0 < length l)%nat -> In (max_time_of l) l.
Proof.
  destruct l as [|y l]; simpl length; [lia |]. intros _.
  apply StatsFacts.max_of_In.
Qed.

Lemma p95_of_le_max (l : list Q) :
  (0 < length l)%nat -> (p95_of l <= max_time_of l)%Q.
Proof. intros Hl. now apply max_time_of_upper, p95_of_In. Qed.

(** Up to twenty latencies the percentile is the largest of them. *)
Lemma p95_of_small_bound (l : list Q) :
  (0 < length l <= 20)%nat ->
  forall x, In x l -> (x <= p95_of l)%Q.
Proof.
  intros [Hl Hs] x Hx. rewrite (p95_of_nth l Hl).
  rewrite StatsFacts.p95_index_small by lia.
  rewrite <- (StatsFacts.sorted_length l).
  apply StatsFacts.ascending_last_bound;
    [apply StatsFacts.sorted_ascending | now apply StatsFacts.sorted_In].
Qed.

Lemma avg_of_mean (l : list Q) : (0 < length l)%nat -> avg_of l = Stats.mean l.
Proof. destruct l; simpl length; [lia | reflexivity]. Qed.

(** C6, as stated, fails: on these results the index is
    [int(21 * 0.95) = 19], the percentile is one second, and the mean is two
    seconds. *)
Lemma p95_below_mean :
  exists an,
    analyze_results slow_tail_results = Some an
    /\ all_response_times slow_tail_results = replicate 20 1%Q ++ [22%Q]
    /\ Stats.p95_index 21 = 19%nat
    /\ (p95_response_time an == 1)%Q
    /\ (avg_response_time an == 2)%Q
    /\ (max_response_time an == 22)%Q
    /\ ~ (avg_response_time an <= p95_response_time an)%Q.
Proof.
  eexists. split; [reflexivity |].
  split; [reflexivity |]. split; [reflexivity |].
  split; [vm_compute; reflexivity |]. split; [vm_compute; reflexivity |].
  split; [vm_compute; reflexivity |].
  vm_compute. intros H. apply H. reflexivity.
Qed.

(** C6, amended.  On every non-empty sample of pooled latencies the
    aggregated 95th-percentile latency is at most the maximum latency. *)
Theorem p95_at_most_max (results : list TestResult) :
  (0 < length (all_response_times results))%nat ->
  exists an,
    analyze_results results = Some an
    /\ (p95_response_time an <= max_response_time an)%Q.
Proof.
  intros Hl. destruct results as [|r rs]; [simpl in Hl; lia |].
  eexists. split; [reflexivity |].
  cbn [p95_response_time max_response_time].
  now apply p95_of_le_max.
Qed.

Lemma p95_at_most_max_witness :
  exists an,
    analyze_results slow_tail_results = Some an
    /\ (p95_response_time an <= max_response_time an)%Q.
Proof.
  apply (p95_at_most_max slow_tail_results). vm_compute. lia.
Defined.

(** ** The hand-off rate *)

Lemma count_if_ext {A} (p q : A -> bool) (l : list A) :
  Forall (fun x => p x = q x) l -> Stats.count_if p l = Stats.count_if q l.
Proof.
  unfold Stats.count_if. induction 1 as [|x l Hx _ IH]; [reflexivity |].
  simpl. rewrite Hx. destruct (q x); simpl; congruence.
Qed.

Lemma count_if_map {A B} (f : A -> B) (p : B -> bool) (l : list A) :
  Stats.count_if p (map f l) = Stats.count_if (fun x => p (f x)) l.
Proof.
  unfold Stats.count_if. induction l as [|x l IH]; [reflexivity |].
  simpl. destruct (p (f x)); simpl; congruence.
Qed.

Lemma hand_off_rate_percent (results : list TestResult) (an : analysis) :
  analyze_results results = Some an ->
  hand_off_rate an
  = Stats.percent (Stats.count_if properly_closed results) (length results).
Proof.
  destruct results as [|r rs]; [discriminate |].
  intros [= <-]. reflexivity.
Qed.

(** The last agent utterance closes: one of the five phrases occurs in its
    lowered text. *)
Lemma final_utterance_closes_spec (lower : string -> string) (r : TestResult) :
  final_utterance_closes lower r = true
  <-> exists entry phrase,
        last (conversation r) = Some entry
        /\ In phrase ["au revoir"; "à bientôt"; "fin"; "quitter"; "merci"]
        /\ Str.occurs_in phrase (lower (ex_agent entry)).
Proof.
  unfold final_utterance_closes, Str.contains_any, closing_indicators.
  destruct (last (conversation r)) as [entry|].
  - rewrite existsb_exists. split.
    + intros (phrase & Hin & Hc). exists entry, phrase.
      split; [reflexivity |]. split; [exact Hin |].
      now apply StrFacts.contains_occurs.
    + intros (entry' & phrase & [= <-] & Hin & Ho). exists phrase.
      split; [exact Hin |]. now apply StrFacts.contains_occurs.
  - split; [discriminate |]. intros (entry & phrase & H & _). discriminate H.
Qed.

Section AnalysisClaims.

Context {Ext : Type}.
Variable generate_content : string -> Ext -> result string * Ext.
Variable time_time : Ext -> Q * Ext.
Variable lower : string -> string.
Variable CONFIG : config.
Variable DEFAULT_CLIENT : option string.

#[local] Abbreviation produced :=
  (produced generate_content time_time lower CONFIG DEFAULT_CLIENT).

(** C7, amended.  On a non-empty list of results collected by the
    harness the hand-off rate is a percentage: one hundred times the number
    of results whose last agent utterance contains, whatever the case of its
    letters, one of the five closing phrases, over the number of results;
    changing the success flags of the results does not change it. *)
Theorem hand_off_rate_counts_closing_utterances (results : list TestResult) :
  (0 < length results)%nat ->
  Forall produced results ->
  exists an,
    analyze_results results = Some an
    /\ (forall r,
          final_utterance_closes lower r = true
          <-> exists entry phrase,
                last (conversation r) = Some entry
                /\ In phrase ["au revoir"; "à bientôt"; "fin"; "quitter"; "merci"]
                /\ Str.occurs_in phrase (lower (ex_agent entry)))
    /\ (hand_off_rate an
        == inject_Z (Z.of_nat (length (List.filter (final_utterance_closes lower)
                                         results)))
           / inject_Z (Z.of_nat (length results)) * 100)%Q
    /\ forall flags : TestResult -> bool,
       exists an',
         analyze_results (map (fun r => with_success (flags r) r) results)
         = Some an'
         /\ hand_off_rate an' = hand_off_rate an.
Proof.
  intros Hl Hp.
  destruct (analyze_results results) as [an|] eqn:E;
    [| destruct results; [simpl in Hl; lia | discriminate E]].
  exists an. split; [reflexivity |].
  assert (Hc : Stats.count_if properly_closed results
               = Stats.count_if (final_utterance_closes lower) results).
  { apply count_if_ext. eapply Forall_impl; [exact Hp |].
    intros r (sc & key & it & ext & ->). apply run_single_test_closed. }
  split; [apply final_utterance_closes_spec |]. split.
  - rewrite (hand_off_rate_percent results an E), Hc. reflexivity.
  - intros flags.
    destruct (analyze_results (map (fun r => with_success (flags r) r) results))
      as [an'|] eqn:E';
      [| destruct results; [simpl in Hl; lia | discriminate E']].
    exists an'. split; [reflexivity |].
    rewrite (hand_off_rate_percent _ an' E'), (hand_off_rate_percent _ an E).
    rewrite count_if_map, length_map. reflexivity.
Qed.

End AnalysisClaims.

Lemma hand_off_rate_counts_closing_utterances_witness :
  exists an,
    analyze_results [steady_run; unlisted_run] = Some an
    /\ (forall r,
          final_utterance_closes Str.ascii_lower r = true
          <-> exists entry phrase,
                last (conversation r) = Some entry
                /\ In phrase ["au revoir"; "à bientôt"; "fin"; "quitter"; "merci"]
                /\ Str.occurs_in phrase (Str.ascii_lower (ex_agent entry)))
    /\ (hand_off_rate an
        == inject_Z (Z.of_nat (length (List.filter
                                         (final_utterance_closes Str.ascii_lower)
                                         [steady_run; unlisted_run])))
           / inject_Z (Z.of_nat (length [steady_run; unlisted_run])) * 100)%Q
    /\ forall flags : TestResult -> bool,
       exists an',
         analyze_results
           (map (fun r => with_success (flags r) r) [steady_run; unlisted_run])
         = Some an'
         /\ hand_off_rate an' = hand_off_rate an.
Proof.
  apply (hand_off_rate_counts_closing_utterances
           steady_backend call_clock Str.ascii_lower demo_config None
           [steady_run; unlisted_run]).
  - simpl. lia.
  - constructor.
    + exists scenario_agrees_to_pay, "dell", 1%nat, []. reflexivity.
    + constructor; [| constructor].
      exists scenario_agrees_to_pay, "acme", 1%nat, []. reflexivity.
Defined.

(** C7, as stated, fails: of these two results one ends on a closing
    phrase, so the fraction is one half, and the hand-off rate is fifty. *)
Lemma hand_off_rate_is_a_percentage :
  exists an,
    analyze_results [steady_run; unlisted_run] = Some an
    /\ map (final_utterance_closes Str.ascii_lower) [steady_run; unlisted_run]
       = [true; false]
    /\ (hand_off_rate an == 50)%Q
    /\ ~ (hand_off_rate an
          == inject_Z (Z.of_nat (length (List.filter
                                           (final_utterance_closes Str.ascii_lower)
                                           [steady_run; unlisted_run])))
             / inject_Z (Z.of_nat (length [steady_run; unlisted_run])))%Q.
Proof.
  eexists. split; [reflexivity |]. split; [vm_compute; reflexivity |].
  split; [vm_compute; reflexivity |]. vm_compute. discriminate.
Qed.

(** On these two results one transcript ends on a closing indicator and the
    other is empty: the rate is fifty percent. *)
Example hand_off_rate_of_two_runs :
  Stats.count_if (final_utterance_closes Str.ascii_lower) [steady_run; unlisted_run]
  = 1%nat
  /\ success steady_run = true /\ success unlisted_run = false
  /\ failure_reason unlisted_run
     = Some "API Error: Client 'acme' not found. Available: dell"
  /\ (Stats.percent 1 2 == 50)%Q.
Proof. repeat split; vm_compute; reflexivity. Qed.

(** * Further properties of the code *)

(** ** The constructor *)

Lemma profile_complete_spec (profile : gmap string string) :
  profile_complete profile = true
  <-> is_Some (profile !! "client_name") /\ is_Some (profile !! "closing_line").
Proof.
  unfold profile_complete. rewrite andb_true_iff, !bool_decide_eq_true.
  reflexivity.
Qed.

(** X1.  A session is constructed for a client key exactly when the key is
    listed and its profile has [client_name] and [closing_line]; an unlisted
    key raises the [ValueError] that names it and lists the clients; and a
    constructed session starts with an empty history, the prompt assembled
    from its profile, and the configured model. *)
Theorem constructor_succeeds_iff
    (CONFIG : config) (dflt : option string) (key : string) :
  ((exists a, FrenchDebtCollectionAgent_init CONFIG dflt (Some key) = inr a)
   <-> exists profile,
         clients_lookup (CLIENTS CONFIG) key = Some profile
         /\ profile_complete profile = true)
  /\ (clients_lookup (CLIENTS CONFIG) key = None ->
      FrenchDebtCollectionAgent_init CONFIG dflt (Some key)
      = inl (ValueError (Str.cat ["Client '"; key; "' not found. Available: ";
                                  Str.join ", " (map fst (CLIENTS CONFIG))])))
  /\ (forall a,
        FrenchDebtCollectionAgent_init CONFIG dflt (Some key) = inr a ->
        client_key a = key
        /\ clients_lookup (CLIENTS CONFIG) key = Some (client_config a)
        /\ build_system_prompt (client_config a) = inr (system_prompt a)
        /\ conversation_history a = []
        /\ model a = MODEL CONFIG).
Proof.
  unfold FrenchDebtCollectionAgent_init. cbn [resolve_client_key rbind].
  split; [| split].
  - split.
    + intros [a Ha].
      destruct (clients_lookup (CLIENTS CONFIG) key) as [profile|];
        [| discriminate].
      exists profile. split; [reflexivity |].
      destruct (build_system_prompt profile) as [e|prompt] eqn:E;
        [discriminate |].
      apply profile_complete_spec. now apply build_system_prompt_inr in E.
    + intros (profile & Hk & Hc). rewrite Hk.
      apply profile_complete_spec in Hc. destruct Hc as [H1 H2].
      destruct (build_system_prompt_total profile H1 H2) as [prompt E].
      rewrite E. eexists. reflexivity.
  - intros Hk. rewrite Hk. reflexivity.
  - intros a.
    destruct (clients_lookup (CLIENTS CONFIG) key) as [profile|];
      [| discriminate].
    destruct (build_system_prompt profile) as [e|prompt] eqn:E;
      [discriminate |].
    intros [= <-]. cbn. auto.
Qed.

(** X2.  Without a client key the first key of the table is read before the
    environment is consulted: on an empty table the constructor raises
    [IndexError] even when DEFAULT_CLIENT is set; otherwise it builds the
    session of DEFAULT_CLIENT when that is set, and of the first client when
    it is not. *)
Theorem constructor_default_client (CONFIG : config) (dflt : option string) :
  (CLIENTS CONFIG = [] ->
   FrenchDebtCollectionAgent_init CONFIG dflt None
   = inl (IndexError "list index out of range"))
  /\ (forall first profile rest,
        CLIENTS CONFIG = (first, profile) :: rest ->
        FrenchDebtCollectionAgent_init CONFIG dflt None
        = FrenchDebtCollectionAgent_init CONFIG dflt
            (Some (match dflt with Some k => k | None => first end))).
Proof.
  unfold FrenchDebtCollectionAgent_init, resolve_client_key. split.
  - intros ->. reflexivity.
  - intros first profile rest ->. destruct dflt; reflexivity.
Qed.

(** ** Greeting and history *)

Lemma by_tone_cases (f p c tone : string) :
  by_tone f p c tone = f \/ by_tone f p c tone = p \/ by_tone f p c tone = c.
Proof.
  unfold by_tone.
  destruct (String.eqb tone "formal"); [auto |].
  destruct (String.eqb tone "professional"); [auto |].
  destruct (String.eqb tone "collaborative"); auto.
Qed.

Lemma is_turn_client (text : string) : is_turn ("Client: " +:+ text) = true.
Proof.
  unfold is_turn. now rewrite StrFacts.startswith_append.
Qed.

Lemma is_turn_agent (text : string) : is_turn ("Agent: " +:+ text) = true.
Proof.
  unfold is_turn. rewrite (StrFacts.startswith_append "Agent: " text).
  apply orb_true_r.
Qed.

Section SessionFacts.

Context {Ext : Type}.
Variable generate_content : string -> Ext -> result string * Ext.
Variable lower : string -> string.
Variable CONFIG : config.
Variable DEFAULT_CLIENT : option string.

#[local] Abbreviation respond := (generate_response generate_content lower CONFIG).
#[local] Abbreviation session :=
  (reachable generate_content lower CONFIG DEFAULT_CLIENT).

(** X3.  On a session [start] raises nothing and calls no backend: it
    returns the greeting of the tone of the profile, formal, collaborative
    or otherwise professional, each with the name of the client in it, and
    appends it to the history as an agent turn. *)
Theorem start_gives_greeting (a : agent) (ext : Ext) :
  session a ->
  exists name,
    client_config a !! "client_name" = Some name
    /\ let tone := default "professional" (client_config a !! "tone") in
       let greeting :=
         if decide (tone = "formal") then
           "Bonjour. Je vous appelle de la part de " +:+ name
           +:+ ". Comment puis-je vous aider aujourd'hui?"
         else if decide (tone = "collaborative") then
           "Bonjour. Je suis avec " +:+ name +:+ ". Comment puis-je vous aider?"
         else
           "Bonjour, c'est " +:+ name +:+ ". Comment puis-je vous aider?" in
       start (a, ext)
       = (inr greeting, (append_history ("Agent: " +:+ greeting) a, ext))
       /\ conversation_history (append_history ("Agent: " +:+ greeting) a)
          = conversation_history a ++ ["Agent: " +:+ greeting]
       /\ Str.occurs_in name greeting.
Proof.
  intros Ha. apply reachable_has_name in Ha. destruct Ha as [name Hn].
  exists name. split; [exact Hn |]. cbv zeta.
  match goal with
  | |- start (a, ext) = (inr ?g, _) /\ _ => set (greeting := g)
  end.
  assert (Hg : get_greeting a = inr greeting).
  { unfold get_greeting, Dict.subscript, Dict.get. rewrite Hn.
    cbn [rbind]. rewrite by_tone_decide, !cat_around. reflexivity. }
  split; [| split; [reflexivity |]].
  - unfold start, bind, on_self, modify, ret. cbn [fst snd]. rewrite Hg.
    reflexivity.
  - unfold greeting.
    destruct (decide (default "professional" (client_config a !! "tone")
                      = "formal"));
      [| destruct (decide (default "professional" (client_config a !! "tone")
                           = "collaborative"))];
      apply StrFacts.occurs_append_l, StrFacts.occurs_here.
Qed.

(** X4.  What every session keeps: its profile is the one the table lists
    for its key, its prompt is the one assembled from that profile, its
    model is the configured one; every line of its history is a user turn
    or an agent turn, and the history never ends on a user turn. *)
Theorem session_invariant (a : agent) :
  session a ->
  clients_lookup (CLIENTS CONFIG) (client_key a) = Some (client_config a)
  /\ build_system_prompt (client_config a) = inr (system_prompt a)
  /\ model a = MODEL CONFIG
  /\ Forall (fun line => is_turn line = true) (conversation_history a)
  /\ (conversation_history a = []
      \/ exists earlier reply,
           conversation_history a = earlier ++ ["Agent: " +:+ reply]).
Proof.
  induction 1 as [key a Hi | a ext out a' ext' Ha IH Hs
                  | a msg ext out a' ext' Ha IH Hr].
  - unfold FrenchDebtCollectionAgent_init, rbind in Hi.
    destruct (resolve_client_key CONFIG DEFAULT_CLIENT key) as [e|k];
      [discriminate |].
    destruct (clients_lookup (CLIENTS CONFIG) k) as [profile|] eqn:Hk;
      [| discriminate].
    destruct (build_system_prompt profile) as [e|prompt] eqn:E;
      [discriminate |].
    injection Hi as <-. cbn. repeat split; auto.
  - apply reachable_has_name in Ha.
    destruct (start_total a ext Ha) as [g Hg]. rewrite Hg in Hs.
    injection Hs as _ <- _.
    destruct IH as (H1 & H2 & H3 & H4 & _).
    cbn [client_key client_config system_prompt model conversation_history
           append_history].
    repeat split; try assumption.
    + apply Forall_app. split; [exact H4 |].
      constructor; [apply is_turn_agent | constructor].
    + right. eauto.
  - apply reachable_has_name in Ha.
    destruct (respond_total generate_content lower CONFIG a ext msg Ha)
      as (reply & e1 & Hg & _).
    rewrite Hg in Hr. injection Hr as _ <- _.
    destruct IH as (H1 & H2 & H3 & H4 & _).
    rewrite after_exchange_history.
    cbn [client_key client_config system_prompt model after_exchange
           append_history].
    repeat split; try assumption.
    + apply Forall_app. split; [exact H4 |].
      constructor; [apply is_turn_client |].
      constructor; [apply is_turn_agent | constructor].
    + right. exists (conversation_history a ++ ["Client: " +:+ msg]), reply.
      rewrite <- app_assoc. reflexivity.
Qed.

End SessionFacts.

Lemma start_gives_greeting_witness :
  start (demo_agent, ([] : call_log))
  = (inr "Bonjour. Je vous appelle de la part de Dell. Comment puis-je vous aider aujourd'hui?",
     (append_history
        "Agent: Bonjour. Je vous appelle de la part de Dell. Comment puis-je vous aider aujourd'hui?"
        demo_agent,
      []))
  /\ Str.occurs_in "Dell"
       "Bonjour. Je vous appelle de la part de Dell. Comment puis-je vous aider aujourd'hui?".
Proof.
  destruct (start_gives_greeting failing_backend Str.ascii_lower demo_config None
              demo_agent [])
    as (name & Hn & Hs & _ & Ho).
  - apply reach_init with (Some "dell"). vm_compute. reflexivity.
  - vm_compute in Hn. injection Hn as <-. split; [exact Hs | exact Ho].
Defined.

Lemma demo_conversed_session :
  reachable steady_backend Str.ascii_lower demo_config None demo_conversed.
Proof.
  eapply (reach_respond steady_backend Str.ascii_lower demo_config None
            demo_started "Bonjour." []).
  - eapply (reach_start steady_backend Str.ascii_lower demo_config None
              demo_agent []).
    + apply reach_init with (Some "dell"). vm_compute. reflexivity.
    + vm_compute. reflexivity.
  - vm_compute. reflexivity.
Defined.

Lemma session_invariant_witness :
  clients_lookup (CLIENTS demo_config) (client_key demo_conversed)
  = Some (client_config demo_conversed)
  /\ build_system_prompt (client_config demo_conversed)
     = inr (system_prompt demo_conversed)
  /\ model demo_conversed = MODEL demo_config
  /\ Forall (fun line => is_turn line = true)
       (conversation_history demo_conversed)
  /\ (conversation_history demo_conversed = []
      \/ exists earlier reply,
           conversation_history demo_conversed
           = earlier ++ ["Agent: " +:+ reply]).
Proof.
  apply (session_invariant steady_backend Str.ascii_lower demo_config None
           demo_conversed).
  exact demo_conversed_session.
Defined.

(** The history of that session: the greeting and one exchange. *)
Example demo_conversed_history :
  conversation_history demo_conversed
  = ["Agent: Bonjour. Je vous appelle de la part de Dell. Comment puis-je vous aider aujourd'hui?";
     "Client: Bonjour.";
     "Agent: D'accord, merci."].
Proof. vm_compute. reflexivity. Qed.

(** ** The window of the prompt *)

(** X5.  With a positive history bound the window is the last turns of the
    history in their order, as many as the bound allows; it is the whole
    history while that is no longer than the bound, and it always ends on
    the newest turn, so that the utterance being answered is in the prompt. *)
Theorem recent_window_positive_bound
    (CONFIG : config) (history : list string) (newest : string) :
  (0 < MAX_HISTORY CONFIG)%Z ->
  let window := recent_window CONFIG (history ++ [newest]) in
  (exists older, history ++ [newest] = older ++ window)
  /\ length window
     = Nat.min (Z.to_nat (MAX_HISTORY CONFIG)) (length history + 1)
  /\ last window = Some newest
  /\ ((Z.of_nat (length history) < MAX_HISTORY CONFIG)%Z ->
      window = history ++ [newest]).
Proof.
  intros Hn window.
  destruct (recent_window_last_turns CONFIG (history ++ [newest]) Hn)
    as [[older Ho] Hlen].
  fold window in Ho, Hlen. rewrite length_app in Hlen. cbn [length] in Hlen.
  split; [eauto |]. split; [exact Hlen |]. split.
  - assert (Hw : window <> []).
    { intros E. rewrite E in Hlen. cbn in Hlen. lia. }
    assert (Hl : last (history ++ [newest]) = Some newest) by apply last_snoc.
    rewrite Ho, last_app in Hl.
    destruct (last window) as [x|] eqn:E; [exact Hl |].
    apply last_None in E. contradiction.
  - intros Hshort.
    assert (Hk : length older = 0%nat).
    { apply (f_equal length) in Ho. rewrite !length_app in Ho.
      cbn [length] in Ho. lia. }
    destruct older; [| discriminate Hk]. now rewrite Ho.
Qed.

Lemma recent_window_positive_bound_witness :
  let window :=
    recent_window (config_with_max_history 2)
      (["Agent: Bonjour."; "Client: Bonjour."; "Agent: D'accord."]
       ++ ["Client: Au revoir."]) in
  (exists older,
      ["Agent: Bonjour."; "Client: Bonjour."; "Agent: D'accord."]
      ++ ["Client: Au revoir."] = older ++ window)
  /\ length window
     = Nat.min (Z.to_nat (MAX_HISTORY (config_with_max_history 2)))
         (length ["Agent: Bonjour."; "Client: Bonjour."; "Agent: D'accord."] + 1)
  /\ last window = Some "Client: Au revoir."
  /\ ((Z.of_nat (length ["Agent: Bonjour."; "Client: Bonjour."; "Agent: D'accord."])
       < MAX_HISTORY (config_with_max_history 2))%Z ->
      window
      = ["Agent: Bonjour."; "Client: Bonjour."; "Agent: D'accord."]
        ++ ["Client: Au revoir."]).
Proof.
  apply (recent_window_positive_bound (config_with_max_history 2)
           ["Agent: Bonjour."; "Client: Bonjour."; "Agent: D'accord."]
           "Client: Au revoir.").
  vm_compute. reflexivity.
Defined.

(** X6.  With a negative history bound the slice drops the oldest turns
    instead of keeping the newest: the window is the history without its
    first turns, as many as the bound in absolute value, and once the
    history is no longer than that the prompt carries no turn at all, not
    even the utterance being answered. *)
Theorem recent_window_negative_bound
    (CONFIG : config) (a : agent) (msg : string) :
  (MAX_HISTORY CONFIG < 0)%Z ->
  (forall history,
      recent_window CONFIG history
      = drop (Z.to_nat (- MAX_HISTORY CONFIG)) history)
  /\ ((Z.of_nat (length (conversation_history a)) < - MAX_HISTORY CONFIG)%Z ->
      full_prompt CONFIG (append_history ("Client: " +:+ msg) a)
      = Str.cat [system_prompt a; history_header; EmptyString;
                 instruction_footer]).
Proof.
  intros Hn.
  assert (Hw : forall history,
             recent_window CONFIG history
             = drop (Z.to_nat (- MAX_HISTORY CONFIG)) history).
  { intros history. unfold recent_window, Seq.slice_from.
    destruct (Z.ltb_spec (- MAX_HISTORY CONFIG) 0) as [H | _]; [lia |].
    destruct (Z.min_spec (- MAX_HISTORY CONFIG) (Z.of_nat (length history)))
      as [[_ ->] | [Hle ->]]; [reflexivity |].
    rewrite Nat2Z.id, !drop_ge; [reflexivity | lia | lia]. }
  split; [exact Hw |]. intros Hshort.
  unfold full_prompt, build_context. rewrite Hw.
  cbn [conversation_history system_prompt append_history].
  rewrite drop_ge; [reflexivity |]. rewrite length_app. cbn [length]. lia.
Qed.

Lemma recent_window_negative_bound_witness :
  (forall history,
      recent_window (config_with_max_history (-3)) history
      = drop (Z.to_nat (- MAX_HISTORY (config_with_max_history (-3)))) history)
  /\ ((Z.of_nat (length (conversation_history demo_agent))
       < - MAX_HISTORY (config_with_max_history (-3)))%Z ->
      full_prompt (config_with_max_history (-3))
        (append_history ("Client: " +:+ "Bonjour.") demo_agent)
      = Str.cat [system_prompt demo_agent; history_header; EmptyString;
                 instruction_footer]).
Proof.
  apply (recent_window_negative_bound (config_with_max_history (-3))
           demo_agent "Bonjour.").
  vm_compute. reflexivity.
Defined.

(** ** Closing messages *)

Lemma contains_empty (text : string) : Str.contains EmptyString text = true.
Proof. destruct text; reflexivity. Qed.

Lemma has_upper_append (a b : string) :
  has_upper (a +:+ b) = has_upper a || has_upper b.
Proof.
  induction a as [|c a IH]; [reflexivity |].
  change (has_upper (String c a +:+ b))
    with ((let n := Ascii.nat_of_ascii c in (65 <=? n)%nat && (n <=? 90)%nat)
          || has_upper (a +:+ b)).
  rewrite IH. cbn [has_upper]. now rewrite orb_assoc.
Qed.

(** A text with a capital letter occurs in no text without one. *)
Lemma contains_upper_in_lowered (word text : string) :
  has_upper word = true -> has_upper text = false ->
  Str.contains word text = false.
Proof.
  intros Hw Ht. destruct (Str.contains word text) eqn:E; [| reflexivity].
  apply StrFacts.contains_occurs in E. destruct E as (pre & post & ->).
  rewrite !has_upper_append, Hw in Ht.
  rewrite orb_true_l, orb_true_r in Ht. discriminate Ht.
Qed.

Lemma ascii_lower_char_range (c : Ascii.ascii) :
  let n := Ascii.nat_of_ascii (Str.ascii_lower_char c) in
  (65 <=? n)%nat && (n <=? 90)%nat = false.
Proof.
  destruct c as [[] [] [] [] [] [] [] []]; vm_compute; reflexivity.
Qed.

Lemma ascii_lower_no_upper (text : string) :
  has_upper (Str.ascii_lower text) = false.
Proof.
  induction text as [|c text IH]; [reflexivity |].
  cbn [Str.ascii_lower has_upper]. rewrite IH, orb_false_r.
  apply ascii_lower_char_range.
Qed.

Section ClosingFacts.

Variable lower : string -> string.
Variable CONFIG : config.

(** X7.  When no closing word is configured no message is a closing
    message; when the empty text is among the closing words every message
    is one. *)
Theorem closing_words_edge_cases :
  (CLOSING_WORDS CONFIG = [] ->
   forall text, is_closing_message lower CONFIG text = false)
  /\ (In EmptyString (CLOSING_WORDS CONFIG) ->
      forall text, is_closing_message lower CONFIG text = true).
Proof.
  unfold is_closing_message, Str.contains_any. split.
  - intros -> text. reflexivity.
  - intros Hin text. apply existsb_exists.
    exists EmptyString. split; [exact Hin | apply contains_empty].
Qed.

(** X8.  The message is lowered and the closing words are not: when the
    lowered text holds no capital letter, as with [str.lower], a closing
    word written with a capital letter matches no message, and a
    configuration of such words only closes no conversation. *)
Theorem capitalized_closing_words_never_match :
  (forall text, has_upper (lower text) = false) ->
  Forall (fun word => has_upper word = true) (CLOSING_WORDS CONFIG) ->
  forall text, is_closing_message lower CONFIG text = false.
Proof.
  intros Hlow Hwords text. unfold is_closing_message, Str.contains_any.
  induction Hwords as [|word words Hw _ IH]; [reflexivity |].
  cbn [existsb]. rewrite IH, orb_false_r.
  now apply contains_upper_in_lowered.
Qed.

End ClosingFacts.

Lemma capitalized_closing_words_never_match_witness :
  is_closing_message Str.ascii_lower
    (config_with_closing_words ["Au revoir"; "Merci"]) "Au revoir" = false.
Proof.
  apply (capitalized_closing_words_never_match Str.ascii_lower
           (config_with_closing_words ["Au revoir"; "Merci"])).
  - exact ascii_lower_no_upper.
  - repeat constructor.
Defined.

(** ** The interactive loop *)

Section InteractiveFacts.

Context {Ext : Type}.
Variable generate_content : string -> Ext -> result string * Ext.
Variable lower : string -> string.
Variable strip : string -> string.
Variable CONFIG : config.
Variable DEFAULT_CLIENT : option string.

#[local] Abbreviation init := (FrenchDebtCollectionAgent_init CONFIG DEFAULT_CLIENT).
#[local] Abbreviation respond := (generate_response generate_content lower CONFIG).
#[local] Abbreviation loop :=
  (conversation_loop generate_content lower strip CONFIG).
#[local] Abbreviation said := (spoken lower strip CONFIG).
#[local] Abbreviation closed := (closes lower strip CONFIG).

Lemma init_has_closing_line key a : init key = inr a -> has_closing_line a.
Proof.
  unfold FrenchDebtCollectionAgent_init, rbind.
  destruct (resolve_client_key CONFIG DEFAULT_CLIENT key) as [e|k];
    [discriminate |].
  destruct (clients_lookup (CLIENTS CONFIG) k) as [profile|]; [| discriminate].
  destruct (build_system_prompt profile) as [e|prompt] eqn:E; [discriminate |].
  intros [= <-]. unfold has_closing_line. simpl.
  now apply build_system_prompt_inr in E.
Qed.

(** The loop on a session whose profile is complete. *)
Lemma conversation_loop_spec (typed : list string) :
  forall (a : agent) (ext : Ext),
    has_name a -> has_closing_line a ->
    exists replies a' ext',
      loop typed (a, ext)
      = (inr (if closed typed then Ended (length (conversation_history a'))
              else AwaitingInput),
         (a', ext'))
      /\ length replies = length (said typed)
      /\ conversation_history a'
         = conversation_history a ++ exchanges (said typed) replies.
Proof.
  induction typed as [|line rest IH]; intros a ext Hn Hc.
  - exists [], a, ext. cbn. rewrite app_nil_r. auto.
  - cbn [conversation_loop spoken closes].
    destruct (strip line) as [|c u] eqn:Hu; [now apply IH |].
    destruct (is_closing_message lower CONFIG (String c u)) eqn:Hq.
    + exists [], a, ext. destruct Hc as [cl Hcl].
      unfold bind, gets, ret, Dict.subscript. cbn [fst snd]. rewrite Hcl.
      cbn. rewrite app_nil_r. auto.
    + destruct (respond_total generate_content lower CONFIG a ext (String c u) Hn)
        as (reply & e1 & E & _).
      destruct (IH (after_exchange (String c u) reply a) e1 Hn Hc)
        as (replies & a' & ext' & E' & Hl & Hh).
      exists (reply :: replies), a', ext'.
      unfold bind at 1. rewrite E, E'.
      split; [reflexivity |]. split; [cbn; now rewrite Hl |].
      rewrite Hh, after_exchange_history, <- app_assoc. reflexivity.
Qed.

Lemma exchanges_length (us rs : list string) :
  length rs = length us -> length (exchanges us rs) = (2 * length us)%nat.
Proof.
  revert rs. induction us as [|u us IH]; intros [|r rs] H;
    try discriminate H; [reflexivity |].
  cbn [exchanges length]. rewrite IH by (cbn in H; lia). lia.
Qed.

(** X9.  [run_agent] for a client whose session can be constructed raises
    nothing on the lines typed: the history is the greeting followed by one
    exchange for each stripped line that is not empty, up to the first
    closing message; the closing message and the empty lines are neither
    recorded nor sent to [generate_response]; and the loop has ended, having
    counted one message more than twice the exchanges, exactly when a closing
    message was typed. *)
Theorem run_agent_transcript
    (key : option string) (typed : list string) (ext : Ext) (a : agent) :
  init key = inr a ->
  exists greeting replies a' ext',
    run_agent generate_content lower strip CONFIG DEFAULT_CLIENT key typed ext
    = (inr (if closed typed then Ended (1 + 2 * length (said typed))
            else AwaitingInput),
       Some a', ext')
    /\ get_greeting a = inr greeting
    /\ length replies = length (said typed)
    /\ conversation_history a'
       = ("Agent: " +:+ greeting) :: exchanges (said typed) replies.
Proof.
  intros Hi.
  assert (Hn : has_name a) by (now apply init_has_name in Hi).
  assert (Hc : has_closing_line a) by (now apply init_has_closing_line in Hi).
  assert (Hh : conversation_history a = []).
  { unfold FrenchDebtCollectionAgent_init, rbind in Hi.
    destruct (resolve_client_key CONFIG DEFAULT_CLIENT key); [discriminate |].
    destruct (clients_lookup (CLIENTS CONFIG) s); [| discriminate].
    destruct (build_system_prompt g); [discriminate |].
    now injection Hi as <-. }
  destruct (get_greeting_total a Hn) as [g Hg].
  destruct (start_total a ext Hn) as [g' Hs].
  assert (g' = g).
  { unfold start, bind in Hs. cbn [fst snd] in Hs. rewrite Hg in Hs.
    unfold on_self, modify, ret in Hs. cbn in Hs. now injection Hs. }
  subst g'.
  destruct (conversation_loop_spec typed
              (append_history ("Agent: " +:+ g) a) ext Hn Hc)
    as (replies & a' & ext' & E & Hl & Hhist).
  exists g, replies, a', ext'.
  assert (Hout :
    (_ <- (fun st : agent * Ext =>
             (Dict.subscript (client_config (fst st)) "client_name", st)) ;;
     _ <- start ;;
     loop typed)%py (a, ext)
    = (inr (if closed typed then Ended (length (conversation_history a'))
            else AwaitingInput),
       (a', ext'))).
  { destruct Hn as [name Hname]. unfold bind at 1. cbn [fst snd].
    unfold Dict.subscript. rewrite Hname. unfold bind at 1. rewrite Hs.
    exact E. }
  unfold run_agent. rewrite Hi. cbv zeta. rewrite Hout. cbn [fst snd].
  rewrite Hhist. cbn [conversation_history append_history]. rewrite Hh.
  cbn [app]. split; [| auto].
  destruct (closed typed); [| reflexivity].
  cbn [length]. rewrite exchanges_length by exact Hl. reflexivity.
Qed.

Lemma conversation_loop_after_closing (before after : list string)
    (closing : string) (c : Ascii.ascii) (u : string) :
  strip closing = String c u ->
  is_closing_message lower CONFIG (String c u) = true ->
  forall st : agent * Ext,
    loop (before ++ closing :: after) st = loop (before ++ [closing]) st.
Proof.
  intros Hu Hq. induction before as [|line rest IH]; intros st.
  - cbn [app conversation_loop]. rewrite Hu, Hq. reflexivity.
  - rewrite <- !app_comm_cons. cbn [conversation_loop].
    destruct (strip line) as [|c' u']; [apply IH |].
    destruct (is_closing_message lower CONFIG (String c' u')); [reflexivity |].
    unfold bind. destruct (respond (String c' u') st) as [[e|r] st'];
      [reflexivity | apply IH].
Qed.

(** X10.  Whatever is typed after a closing message has no effect: the
    outcome of [run_agent], the session and the outside world are those of
    the lines up to that message. *)
Theorem run_agent_ignores_input_after_closing
    (key : option string) (before after : list string) (closing : string)
    (ext : Ext) :
  strip closing <> EmptyString ->
  is_closing_message lower CONFIG (strip closing) = true ->
  run_agent generate_content lower strip CONFIG DEFAULT_CLIENT key
    (before ++ closing :: after) ext
  = run_agent generate_content lower strip CONFIG DEFAULT_CLIENT key
      (before ++ [closing]) ext.
Proof.
  intros Hne Hq. destruct (strip closing) as [|c u] eqn:Hu; [contradiction |].
  unfold run_agent. destruct (init key) as [e|a]; [reflexivity |].
  assert (E : forall st : agent * Ext,
             loop (before ++ closing :: after) st = loop (before ++ [closing]) st)
    by (now apply conversation_loop_after_closing with c u).
  unfold bind.
  destruct (Dict.subscript (client_config (fst (a, ext))) "client_name");
    [reflexivity |].
  destruct (start (a, ext)) as [[e|g] st]; [reflexivity |].
  now rewrite E.
Qed.

End InteractiveFacts.

Lemma run_agent_transcript_witness :
  exists greeting replies a' ext',
    run_agent steady_backend Str.ascii_lower no_strip
      (config_with_closing_words ["au revoir"]) None (Some "dell")
      ["Bonjour."; EmptyString; "Au revoir."; "Encore une question."] []
    = (inr (if closes Str.ascii_lower no_strip
                 (config_with_closing_words ["au revoir"])
                 ["Bonjour."; EmptyString; "Au revoir."; "Encore une question."]
            then Ended (1 + 2 * length
                                  (spoken Str.ascii_lower no_strip
                                     (config_with_closing_words ["au revoir"])
                                     ["Bonjour."; EmptyString; "Au revoir.";
                                      "Encore une question."]))
            else AwaitingInput),
       Some a', ext')
    /\ get_greeting demo_agent = inr greeting
    /\ length replies
       = length (spoken Str.ascii_lower no_strip
                   (config_with_closing_words ["au revoir"])
                   ["Bonjour."; EmptyString; "Au revoir."; "Encore une question."])
    /\ conversation_history a'
       = ("Agent: " +:+ greeting)
         :: exchanges
              (spoken Str.ascii_lower no_strip
                 (config_with_closing_words ["au revoir"])
                 ["Bonjour."; EmptyString; "Au revoir."; "Encore une question."])
              replies.
Proof.
  apply (run_agent_transcript steady_backend Str.ascii_lower no_strip
           (config_with_closing_words ["au revoir"]) None (Some "dell")
           ["Bonjour."; EmptyString; "Au revoir."; "Encore une question."] []
           demo_agent).
  vm_compute. reflexivity.
Defined.

Lemma run_agent_ignores_input_after_closing_witness :
  run_agent steady_backend Str.ascii_lower no_strip
    (config_with_closing_words ["au revoir"]) None (Some "dell")
    (["Bonjour."] ++ "Au revoir." :: ["Encore une question."]) []
  = run_agent steady_backend Str.ascii_lower no_strip
      (config_with_closing_words ["au revoir"]) None (Some "dell")
      (["Bonjour."] ++ ["Au revoir."]) [].
Proof.
  apply (run_agent_ignores_input_after_closing steady_backend Str.ascii_lower
           no_strip (config_with_closing_words ["au revoir"]) None (Some "dell")
           ["Bonjour."] ["Encore une question."] "Au revoir." []).
  - vm_compute. discriminate.
  - vm_compute. reflexivity.
Defined.

(** On these lines one exchange is recorded and the loop ends on three
    messages. *)
Example run_agent_demo :
  fst (fst (run_agent steady_backend Str.ascii_lower no_strip
              (config_with_closing_words ["au revoir"]) None (Some "dell")
              ["Bonjour."; EmptyString; "Au revoir."; "Encore une question."] []))
  = inr (Ended 3).
Proof. vm_compute. reflexivity. Qed.

(** ** Test results *)

(** X11.  [finalize] recomputes the success flag from the error message
    alone: after [set_error] the result stays failed, with a reason that
    starts with the API label, whereas a failure recorded through
    [set_failure_reason] is turned into a success, its reason still in
    place. *)
Theorem finalize_recomputes_success :
  (forall msg closed r,
      success (finalize closed (set_error msg r)) = false
      /\ failure_reason (finalize closed (set_error msg r))
         = Some ("API Error: " +:+ msg))
  /\ (forall reason closed r,
        success (set_failure_reason reason r) = false
        /\ (error_message r = None ->
            success (finalize closed (set_failure_reason reason r)) = true
            /\ failure_reason (finalize closed (set_failure_reason reason r))
               = Some reason)).
Proof.
  split.
  - intros msg closed r. split; reflexivity.
  - intros reason closed r. split; [reflexivity |].
    intros He. cbn. rewrite He. split; reflexivity.
Qed.

Lemma add_entries_snoc (entries : list exchange) (e : exchange) (r : TestResult) :
  add_entries (entries ++ [e]) r
  = add_exchange (ex_user e) (ex_agent e) (ex_response_time e)
      (add_entries entries r).
Proof. unfold add_entries. now rewrite fold_left_app. Qed.

(** What a run of [add_exchange] changes, and what it keeps. *)
Lemma add_entries_fields (entries : list exchange) (r : TestResult) :
  conversation (add_entries entries r) = conversation r ++ entries
  /\ response_times (add_entries entries r)
     = response_times r ++ map ex_response_time entries
  /\ turns (add_entries entries r) = (turns r + length entries)%nat
  /\ test_id (add_entries entries r) = test_id r
  /\ success (add_entries entries r) = success r
  /\ error_message (add_entries entries r) = error_message r
  /\ failure_reason (add_entries entries r) = failure_reason r
  /\ properly_closed (add_entries entries r) = properly_closed r
  /\ total_time (add_entries entries r) = total_time r.
Proof.
  induction entries as [|e entries IH] using rev_ind.
  - cbn. rewrite !app_nil_r. repeat split; lia.
  - rewrite add_entries_snoc.
    destruct IH as (H1 & H2 & H3 & H4 & H5 & H6 & H7 & H8 & H9).
    unfold test_id in *.
    cbn [conversation response_times turns scenario_name tr_client_key
           iteration success error_message failure_reason properly_closed
           total_time add_exchange].
    rewrite H1, H2, H3, map_app, length_app, <- !app_assoc. cbn [map length].
    destruct e. cbn. repeat split; auto; lia.
Qed.

Section HarnessShape.

Context {Ext : Type}.
Variable generate_content : string -> Ext -> result string * Ext.
Variable time_time : Ext -> Q * Ext.
Variable lower : string -> string.
Variable CONFIG : config.
Variable DEFAULT_CLIENT : option string.

#[local] Abbreviation init := (FrenchDebtCollectionAgent_init CONFIG DEFAULT_CLIENT).
#[local] Abbreviation converse :=
  (run_conversation generate_content time_time lower CONFIG).
#[local] Abbreviation run_test :=
  (run_single_test generate_content time_time lower CONFIG DEFAULT_CLIENT).

(** The loop adds one exchange for each utterance, in order. *)
Lemma run_conversation_entries msgs :
  forall a (r : TestResult) (ext : Ext),
    has_name a ->
    exists a' ext' entries,
      converse a msgs (r, ext) = (inr a', (add_entries entries r, ext'))
      /\ map ex_user entries = msgs.
Proof.
  induction msgs as [|msg rest IH]; intros a r ext Hn.
  - exists a, ext, []. split; reflexivity.
  - destruct (run_conversation_cons generate_content time_time lower CONFIG
                a msg rest r ext Hn) as (reply & latency & e1 & E).
    destruct (IH (after_exchange msg reply a) (add_exchange msg reply latency r) e1 Hn)
      as (a' & ext' & entries & E' & Hu).
    exists a', ext',
      ({| ex_user := msg; ex_agent := reply; ex_response_time := latency |}
       :: entries).
    rewrite E, E'. split; [reflexivity | cbn; now rewrite Hu].
Qed.

(** The result of a test whose session is constructed, in closed form. *)
Lemma run_single_test_constructed_eq sc key it (ext : Ext) a :
  init (Some key) = inr a ->
  exists greeting entries last_entry ext',
    get_greeting a = inr greeting
    /\ map ex_user entries = sc_conversation sc
    /\ last (greeting_entry greeting :: entries) = Some last_entry
    /\ run_test sc key it ext
       = (let closed :=
            Str.contains_any closing_indicators (lower (ex_agent last_entry)) in
          finalize closed
            (set_properly_closed closed
               (add_entries entries
                  (append_conversation (greeting_entry greeting)
                     (TestResult_init (sc_name sc) key it)))),
          ext').
Proof.
  intros Hi.
  assert (Hn : has_name a) by (now apply init_has_name in Hi).
  destruct (get_greeting_total a Hn) as [g Hg].
  destruct (start_total a ext Hn) as [g' Hs].
  assert (g' = g).
  { unfold start, bind in Hs. cbn [fst snd] in Hs. rewrite Hg in Hs.
    unfold on_self, modify, ret in Hs. cbn in Hs. now injection Hs. }
  subst g'.
  set (r1 := append_conversation (greeting_entry g)
               (TestResult_init (sc_name sc) key it)).
  destruct (run_conversation_entries (sc_conversation sc)
              (append_history ("Agent: " +:+ g) a) r1 ext Hn)
    as (a' & ext' & entries & E & Hu).
  assert (Hlast : exists last_entry,
             last (greeting_entry g :: entries) = Some last_entry).
  { destruct entries as [|x xs _] using rev_ind.
    - eexists. reflexivity.
    - eexists. rewrite app_comm_cons, last_snoc. reflexivity. }
  destruct Hlast as [last_entry Hl].
  exists g, entries, last_entry, ext'.
  split; [exact Hg |]. split; [exact Hu |]. split; [exact Hl |].
  unfold run_single_test, try_except, run_single_test_body.
  unfold bind at 1. unfold lift_result at 1. rewrite Hi.
  unfold bind at 1. unfold with_agent at 1. cbn [fst snd]. rewrite Hs.
  unfold bind at 1. unfold on_result at 1, modify at 1. cbn [fst snd].
  fold (greeting_entry g). fold r1.
  unfold bind at 1. rewrite E.
  unfold bind at 1. unfold gets at 1. cbn [fst snd].
  assert (Hconv : conversation (add_entries entries r1)
                  = greeting_entry g :: entries).
  { destruct (add_entries_fields entries r1) as (H1 & _). rewrite H1.
    reflexivity. }
  unfold bind at 1. unfold lift_result at 1, Seq.last_item.
  rewrite Hconv, Hl.
  unfold bind, on_result, modify, gets. cbn [fst snd]. reflexivity.
Qed.

(** X12.  A test whose session is constructed records, in order, one
    exchange for each utterance of the scenario after the greeting, and one
    latency for each; it keeps the scenario, client and iteration it was
    created with, carries no error message and no failure reason, and its
    total time is the sum of its latencies. *)
Theorem run_single_test_transcript sc key it (ext : Ext) a :
  init (Some key) = inr a ->
  let r := fst (run_test sc key it ext) in
  test_id r = (sc_name sc, key, it)
  /\ map ex_user (conversation r) = "[greeting]" :: sc_conversation sc
  /\ (exists greeting,
        get_greeting a = inr greeting
        /\ head (map ex_agent (conversation r)) = Some greeting)
  /\ map ex_response_time (conversation r) = 0%Q :: response_times r
  /\ turns r = length (sc_conversation sc)
  /\ length (response_times r) = length (sc_conversation sc)
  /\ error_message r = None /\ failure_reason r = None
  /\ (total_time r == sum_times (response_times r))%Q.
Proof.
  intros Hi r. subst r.
  destruct (run_single_test_constructed_eq sc key it ext a Hi)
    as (g & entries & last_entry & ext' & Hg & Hu & _ & E).
  rewrite E. cbv zeta. cbn [fst].
  set (r1 := append_conversation (greeting_entry g)
               (TestResult_init (sc_name sc) key it)).
  destruct (add_entries_fields entries r1)
    as (H1 & H2 & H3 & H4 & _ & H6 & H7 & _).
  unfold test_id in *.
  cbn [conversation response_times turns scenario_name tr_client_key iteration
         error_message failure_reason total_time finalize set_properly_closed].
  rewrite H1, H2, H3, H6, H7.
  injection H4 as -> -> ->.
  assert (Hlen : length entries = length (sc_conversation sc))
    by (rewrite <- Hu; now rewrite length_map).
  cbn [r1 conversation response_times turns scenario_name tr_client_key
         iteration error_message failure_reason append_conversation
         TestResult_init app map greeting_entry ex_user ex_agent
         ex_response_time head].
  rewrite Hu, length_map, Hlen.
  repeat split; auto.
  - eauto.
  - destruct (map ex_response_time entries); reflexivity.
Qed.

(** X13.  A test whose session cannot be constructed is recorded as
    failed without a turn: the transcript and the latencies are empty, the
    closing flag is unset, the outside world is untouched, and the reason
    carries the API label although no call was made. *)
Theorem run_single_test_construction_failure sc key it (ext : Ext) e :
  init (Some key) = inl e ->
  exists r,
    run_test sc key it ext = (r, ext)
    /\ test_id r = (sc_name sc, key, it)
    /\ success r = false /\ properly_closed r = false
    /\ conversation r = [] /\ response_times r = [] /\ turns r = 0%nat
    /\ error_message r = Some (str_of_exn e)
    /\ failure_reason r = Some ("API Error: " +:+ str_of_exn e).
Proof.
  intros Hi. eexists.
  split; [exact (run_single_test_not_constructed _ _ _ _ _ sc key it ext e Hi) |].
  repeat split.
Qed.

(** Every result keeps the identity it was created with. *)
Lemma run_single_test_id sc key it (ext : Ext) :
  test_id (fst (run_test sc key it ext)) = (sc_name sc, key, it).
Proof.
  destruct (init (Some key)) as [e|a] eqn:Hi.
  - now rewrite (run_single_test_not_constructed _ _ _ _ _ sc key it ext e Hi).
  - destruct (run_single_test_constructed_eq sc key it ext a Hi)
      as (g & entries & last_entry & ext' & _ & _ & _ & E).
    rewrite E. cbv zeta. cbn [fst].
    destruct (add_entries_fields entries
                (append_conversation (greeting_entry g)
                   (TestResult_init (sc_name sc) key it)))
      as (_ & _ & _ & H4 & _).
    unfold test_id in *. cbn [scenario_name tr_client_key iteration finalize
                                set_properly_closed].
    exact H4.
Qed.

#[local] Abbreviation collect :=
  (run_and_collect generate_content time_time lower CONFIG DEFAULT_CLIENT).
#[local] Abbreviation run_all :=
  (run_all_tests generate_content time_time lower CONFIG DEFAULT_CLIENT).

Lemma collect_iterations sc key (its : list nat) :
  forall acc : list TestResult * Ext,
    map test_id (fst (fold_left (collect sc key) its acc))
    = map test_id (fst acc) ++ map (fun it => (sc_name sc, key, it)) its.
Proof.
  induction its as [|it its IH]; intros acc.
  - cbn. now rewrite app_nil_r.
  - cbn [fold_left]. rewrite IH. unfold run_and_collect. cbn [fst].
    rewrite map_app. cbn [map]. rewrite run_single_test_id, <- app_assoc.
    reflexivity.
Qed.

Lemma collect_clients sc (its : list nat) (clients : list string) :
  forall acc : list TestResult * Ext,
    map test_id
      (fst (fold_left (fun acc key => fold_left (collect sc key) its acc)
              clients acc))
    = map test_id (fst acc)
      ++ flat_map (fun key => map (fun it => (sc_name sc, key, it)) its) clients.
Proof.
  induction clients as [|key clients IH]; intros acc.
  - cbn. now rewrite app_nil_r.
  - cbn [fold_left flat_map]. rewrite IH, collect_iterations, <- app_assoc.
    reflexivity.
Qed.

Lemma collect_scenarios (its : list nat) (clients : list string)
    (scs : list scenario) :
  forall acc : list TestResult * Ext,
    map test_id
      (fst (fold_left
              (fun acc sc =>
                 fold_left (fun acc key => fold_left (collect sc key) its acc)
                   clients acc)
              scs acc))
    = map test_id (fst acc)
      ++ flat_map
           (fun sc =>
              flat_map (fun key => map (fun it => (sc_name sc, key, it)) its)
                clients)
           scs.
Proof.
  induction scs as [|sc scs IH]; intros acc.
  - cbn. now rewrite app_nil_r.
  - cbn [fold_left flat_map]. rewrite IH, collect_clients, <- app_assoc.
    reflexivity.
Qed.

Lemma flat_map_constant_length {A B} (f : A -> list B) (n : nat) (l : list A) :
  (forall x, length (f x) = n) -> length (flat_map f l) = (length l * n)%nat.
Proof.
  intros H. induction l as [|x l IH]; [reflexivity |].
  cbn [flat_map length]. rewrite length_app, H, IH. lia.
Qed.

(** X14.  [run_all_tests] runs the tests in the order of its three loops,
    scenarios first, then clients, then the iterations from one on, and
    collects one result for each: six times the number of clients times the
    number of iterations, which is the total announced whenever the number
    of iterations is not negative. *)
Theorem run_all_tests_matrix (clients : list string) (iterations : Z) (ext : Ext) :
  map test_id (fst (run_all clients iterations ext))
  = planned_tests clients iterations
  /\ length (fst (run_all clients iterations ext))
     = (6 * length clients * Z.to_nat iterations)%nat
  /\ ((0 <= iterations)%Z ->
      Z.of_nat (length (fst (run_all clients iterations ext)))
      = total_tests_announced clients iterations).
Proof.
  assert (Hids : map test_id (fst (run_all clients iterations ext))
                 = planned_tests clients iterations).
  { unfold run_all_tests. rewrite collect_scenarios. reflexivity. }
  assert (Hlen : length (fst (run_all clients iterations ext))
                 = (6 * length clients * Z.to_nat iterations)%nat).
  { rewrite <- (length_map test_id), Hids. unfold planned_tests.
    rewrite (flat_map_constant_length _ (length clients * Z.to_nat iterations)).
    - cbn [length TEST_SCENARIOS]. lia.
    - intros sc. rewrite (flat_map_constant_length _ (Z.to_nat iterations));
        [reflexivity |].
      intros key. now rewrite length_map, length_seq. }
  split; [exact Hids |]. split; [exact Hlen |].
  intros Hn. rewrite Hlen. unfold total_tests_announced.
  cbn [length TEST_SCENARIOS]. lia.
Qed.

End HarnessShape.

Lemma run_single_test_transcript_witness :
  let r := fst (run_single_test steady_backend call_clock Str.ascii_lower
                  demo_config None scenario_agrees_to_pay "dell" 1 []) in
  test_id r = (sc_name scenario_agrees_to_pay, "dell", 1%nat)
  /\ map ex_user (conversation r)
     = "[greeting]" :: sc_conversation scenario_agrees_to_pay
  /\ (exists greeting,
        get_greeting demo_agent = inr greeting
        /\ head (map ex_agent (conversation r)) = Some greeting)
  /\ map ex_response_time (conversation r) = 0%Q :: response_times r
  /\ turns r = length (sc_conversation scenario_agrees_to_pay)
  /\ length (response_times r) = length (sc_conversation scenario_agrees_to_pay)
  /\ error_message r = None /\ failure_reason r = None
  /\ (total_time r == sum_times (response_times r))%Q.
Proof.
  apply (run_single_test_transcript steady_backend call_clock Str.ascii_lower
           demo_config None scenario_agrees_to_pay "dell" 1%nat [] demo_agent).
  vm_compute. reflexivity.
Defined.

Lemma run_single_test_construction_failure_witness :
  exists r,
    run_single_test steady_backend call_clock Str.ascii_lower demo_config None
      scenario_agrees_to_pay "acme" 1 [] = (r, [])
    /\ test_id r = (sc_name scenario_agrees_to_pay, "acme", 1%nat)
    /\ success r = false /\ properly_closed r = false
    /\ conversation r = [] /\ response_times r = [] /\ turns r = 0%nat
    /\ error_message r
       = Some (str_of_exn
                 (ValueError "Client 'acme' not found. Available: dell"))
    /\ failure_reason r
       = Some ("API Error: "
               +:+ str_of_exn
                     (ValueError "Client 'acme' not found. Available: dell")).
Proof.
  apply (run_single_test_construction_failure steady_backend call_clock
           Str.ascii_lower demo_config None scenario_agrees_to_pay "acme" 1%nat
           [] (ValueError "Client 'acme' not found. Available: dell")).
  vm_compute. reflexivity.
Defined.

(** ** The analysis: totals and rates *)

Lemma count_if_le {A} (p : A -> bool) (l : list A) :
  (Stats.count_if p l <= length l)%nat.
Proof.
  unfold Stats.count_if. induction l as [|x l IH]; [reflexivity |].
  cbn [List.filter length]. destruct (p x); cbn [length]; lia.
Qed.

Lemma count_if_all {A} (p : A -> bool) (l : list A) :
  Stats.count_if p l = length l <-> Forall (fun x => p x = true) l.
Proof.
  unfold Stats.count_if. induction l as [|x l IH]; [now split |].
  cbn [List.filter length]. pose proof (count_if_le p l) as Hle.
  unfold Stats.count_if in Hle. destruct (p x) eqn:E; cbn [length]; split.
  - intros H. constructor; [exact E | apply IH; lia].
  - intros H. inversion H; subst. f_equal. now apply IH.
  - intros H. lia.
  - intros H. inversion H; subst. congruence.
Qed.

Lemma inject_nat_pos (n : nat) : (0 < n)%nat -> (0 < inject_Z (Z.of_nat n))%Q.
Proof. intros H. change 0%Q with (inject_Z 0). rewrite <- Zlt_Qlt. lia. Qed.

(** A count over a positive total, in percent. *)
Lemma percent_bounds (num den : nat) :
  (0 < den)%nat -> (num <= den)%nat ->
  (0 <= Stats.percent num den)%Q /\ (Stats.percent num den <= 100)%Q
  /\ ((Stats.percent num den == 100)%Q <-> num = den).
Proof.
  intros Hd Hn. unfold Stats.percent.
  pose proof (inject_nat_pos den Hd) as Hpos.
  assert (Hnum : (0 <= inject_Z (Z.of_nat num))%Q).
  { change 0%Q with (inject_Z 0). rewrite <- Zle_Qle. lia. }
  assert (Hle : (inject_Z (Z.of_nat num) <= inject_Z (Z.of_nat den))%Q).
  { rewrite <- Zle_Qle. lia. }
  assert (H0 : (0 <= inject_Z (Z.of_nat num) / inject_Z (Z.of_nat den))%Q).
  { apply Qle_shift_div_l; [exact Hpos |]. now rewrite Qmult_0_l. }
  assert (H1 : (inject_Z (Z.of_nat num) / inject_Z (Z.of_nat den) <= 1)%Q).
  { apply Qle_shift_div_r; [exact Hpos |]. now rewrite Qmult_1_l. }
  assert (Hq : (inject_Z (Z.of_nat num) / inject_Z (Z.of_nat den) == 1)%Q
               <-> num = den).
  { split.
    - intros E.
      assert (E' : (inject_Z (Z.of_nat num) == inject_Z (Z.of_nat den))%Q).
      { rewrite <- (Qmult_div_r (inject_Z (Z.of_nat num)) (inject_Z (Z.of_nat den)))
          by (intros Hz; rewrite Hz in Hpos; now apply Qlt_irrefl in Hpos).
        rewrite E. apply Qmult_1_r. }
      unfold Qeq, inject_Z in E'. cbn [Qnum Qden] in E'. lia.
    - intros ->. unfold Qdiv. apply Qmult_inv_r.
      intros Hz. rewrite Hz in Hpos. now apply Qlt_irrefl in Hpos. }
  revert H0 H1 Hq.
  generalize (inject_Z (Z.of_nat num) / inject_Z (Z.of_nat den))%Q. intros q H0 H1 Hq.
  split; [lra |]. split; [lra |].
  rewrite <- Hq. split; intros H; lra.
Qed.

(** X15.  [analyze_results] gives the empty dictionary exactly for the
    empty list; otherwise the total is the number of results, the passed
    tests are those whose success flag is set and are no more than the
    total, both rates lie between 0 and 100, and the success rate is 100,
    the value on which the exit status of the harness depends, exactly when
    every result succeeded. *)
Theorem analyze_results_rates (results : list TestResult) :
  (analyze_results results = None <-> results = [])
  /\ forall an,
       analyze_results results = Some an ->
       total_tests an = length results
       /\ passed_tests an = Stats.count_if success results
       /\ (passed_tests an <= total_tests an)%nat
       /\ (0 <= success_rate an <= 100)%Q
       /\ (0 <= hand_off_rate an <= 100)%Q
       /\ ((success_rate an == 100)%Q
           <-> Forall (fun r => success r = true) results)
       /\ all_results an = results.
Proof.
  split.
  - destruct results; split; intros H; try reflexivity; discriminate H.
  - intros an Han. destruct results as [|r rs]; [discriminate Han |].
    injection Han as <-.
    cbn [total_tests passed_tests success_rate hand_off_rate all_results].
    set (results := r :: rs).
    assert (Hpos : (0 < length results)%nat) by (cbn; lia).
    change (S (length rs)) with (length results).
    pose proof (count_if_le success results) as Hs.
    pose proof (count_if_le properly_closed results) as Hc.
    destruct (percent_bounds _ _ Hpos Hs) as (S0 & S1 & S2).
    destruct (percent_bounds _ _ Hpos Hc) as (C0 & C1 & _).
    repeat split; try assumption.
    + intros H. apply count_if_all. now apply S2.
    + intros H. apply S2. now apply count_if_all.
Qed.

(** ** The analysis: latencies *)

(** X16.  When no latency was recorded the mean, the percentile and the
    maximum are reported as zero; otherwise the maximum is one of the pooled
    latencies and bounds them all, and the mean is at most the maximum. *)
Theorem latency_summary (results : list TestResult) (an : analysis) :
  analyze_results results = Some an ->
  (all_response_times results = [] ->
   avg_response_time an = 0%Q /\ p95_response_time an = 0%Q
   /\ max_response_time an = 0%Q)
  /\ ((0 < length (all_response_times results))%nat ->
      In (max_response_time an) (all_response_times results)
      /\ (forall t, In t (all_response_times results) ->
                    (t <= max_response_time an)%Q)
      /\ (avg_response_time an <= max_response_time an)%Q).
Proof.
  intros Han. destruct results as [|r rs]; [discriminate Han |].
  injection Han as <-.
  cbn [avg_response_time p95_response_time max_response_time].
  set (times := all_response_times (r :: rs)). split.
  - intros ->. repeat split.
  - intros Hl. split; [now apply max_time_of_In |].
    split; [intros t; apply max_time_of_upper |].
    rewrite (avg_of_mean times Hl).
    apply StatsFacts.mean_le_bound; [exact Hl |].
    intros t. apply max_time_of_upper.
Qed.

Lemma latency_summary_witness :
  exists an,
    analyze_results slow_tail_results = Some an
    /\ (all_response_times slow_tail_results = [] ->
        avg_response_time an = 0%Q /\ p95_response_time an = 0%Q
        /\ max_response_time an = 0%Q)
    /\ ((0 < length (all_response_times slow_tail_results))%nat ->
        In (max_response_time an) (all_response_times slow_tail_results)
        /\ (forall t, In t (all_response_times slow_tail_results) ->
                      (t <= max_response_time an)%Q)
        /\ (avg_response_time an <= max_response_time an)%Q).
Proof.
  eexists. split; [reflexivity |].
  apply (latency_summary slow_tail_results). reflexivity.
Defined.

(** ** The analysis: failures by scenario *)

Lemma failed_in_cons (name : string) (r : TestResult) (rs : list TestResult) :
  failed_in name (r :: rs)
  = if negb (success r) && String.eqb (scenario_name r) name
    then r :: failed_in name rs else failed_in name rs.
Proof. reflexivity. Qed.

(** The loop over the results, from any state of the two dictionaries. *)
Lemma record_failures_lookup (name : string) (results : list TestResult) :
  forall acc : gmap string nat * gmap string (list (option string)),
    let out := fold_left (fun acc r => record_failure r acc) results acc in
    fst out !! name
    = match failed_in name results with
      | [] => fst acc !! name
      | _ :: _ =>
          Some (default 0%nat (fst acc !! name)
                + length (failed_in name results))%nat
      end
    /\ snd out !! name
       = match failed_in name results with
         | [] => snd acc !! name
         | _ :: _ =>
             Some (default [] (snd acc !! name)
                   ++ map failure_reason (failed_in name results))
         end.
Proof.
  induction results as [|r rs IH]; intros acc; [split; reflexivity |].
  cbn [fold_left]. cbv zeta in IH |- *.
  destruct (IH (record_failure r acc)) as [IH1 IH2]. rewrite IH1, IH2.
  rewrite failed_in_cons. unfold record_failure.
  destruct (success r); cbn [negb andb]; [split; reflexivity |].
  destruct (String.eqb_spec (scenario_name r) name) as [E | E].
  - subst name. cbn [fst snd]. rewrite !lookup_insert_eq.
    cbn [default from_option id].
    destruct (failed_in (scenario_name r) rs) as [|x xs]; cbn [length map]; split;
      try (f_equal; lia); try reflexivity.
    rewrite <- app_assoc. reflexivity.
  - cbn [fst snd]. rewrite !lookup_insert_ne by exact E. split; reflexivity.
Qed.

(** The two dictionaries of failures and the dictionary of clients, as
    [analyze_results] computes them. *)
Lemma analyze_results_dictionaries (results : list TestResult) (an : analysis) :
  analyze_results results = Some an ->
  failures_by_scenario an
  = fst (fold_left (fun acc r => record_failure r acc) results (∅, ∅))
  /\ failures_with_reasons an
     = snd (fold_left (fun acc r => record_failure r acc) results (∅, ∅))
  /\ per_client_stats an
     = list_to_map
         (map (fun key => (key, stats_of_client results key))
            (map tr_client_key results)).
Proof.
  destruct results as [|r rs]; [discriminate |].
  intros [= <-]. repeat split.
Qed.

(** X17.  For every scenario name, [failures_by_scenario] has an entry
    exactly when a result of that scenario failed; the entry is the number
    of its failed results, and [failures_with_reasons] lists their reasons
    in the order of the results. *)
Theorem failures_by_scenario_counts
    (results : list TestResult) (an : analysis) (name : string) :
  analyze_results results = Some an ->
  failures_by_scenario an !! name
  = match failed_in name results with
    | [] => None
    | failed => Some (length failed)
    end
  /\ failures_with_reasons an !! name
     = match failed_in name results with
       | [] => None
       | failed => Some (map failure_reason failed)
       end
  /\ (is_Some (failures_by_scenario an !! name)
      <-> exists r, In r results /\ success r = false /\ scenario_name r = name).
Proof.
  intros Han.
  destruct (analyze_results_dictionaries results an Han) as (-> & -> & _).
  destruct (record_failures_lookup name results (∅, ∅)) as [H1 H2].
  cbv zeta in H1, H2. cbn [fst snd] in H1, H2.
  rewrite !lookup_empty in H1. rewrite !lookup_empty in H2.
  cbn [default from_option id] in H1, H2.
  assert (E1 : fst (fold_left (fun acc r0 => record_failure r0 acc) results (∅, ∅))
               !! name
               = match failed_in name results with
                 | [] => None
                 | failed => Some (length failed)
                 end).
  { rewrite H1. destruct (failed_in name results); reflexivity. }
  split; [exact E1 |]. split.
  - rewrite H2. destruct (failed_in name results); reflexivity.
  - rewrite E1. split.
    + intros Hs. destruct (failed_in name results) as [|x xs] eqn:Ef;
        [destruct Hs as [? Hs]; discriminate Hs |].
      assert (Hx : In x (failed_in name results)) by (rewrite Ef; now left).
      apply List.filter_In in Hx. destruct Hx as [Hin Hp].
      apply andb_true_iff in Hp. destruct Hp as [Hf Hn].
      exists x. split; [exact Hin |]. split.
      * now apply negb_true_iff in Hf.
      * now apply String.eqb_eq in Hn.
    + intros (x & Hin & Hf & Hn).
      assert (Hx : In x (failed_in name results)).
      { apply List.filter_In. split; [exact Hin |].
        rewrite Hf, Hn, String.eqb_refl. reflexivity. }
      destruct (failed_in name results); [destruct Hx | eexists; reflexivity].
Qed.

Lemma failures_by_scenario_counts_witness :
  exists an,
    analyze_results [steady_run; unlisted_run; unlisted_run] = Some an
    /\ failures_by_scenario an !! "Client Agrees to Pay"
       = match failed_in "Client Agrees to Pay"
                 [steady_run; unlisted_run; unlisted_run] with
         | [] => None
         | failed => Some (length failed)
         end
    /\ failures_with_reasons an !! "Client Agrees to Pay"
       = match failed_in "Client Agrees to Pay"
                 [steady_run; unlisted_run; unlisted_run] with
         | [] => None
         | failed => Some (map failure_reason failed)
         end
    /\ (is_Some (failures_by_scenario an !! "Client Agrees to Pay")
        <-> exists r, In r [steady_run; unlisted_run; unlisted_run]
                      /\ success r = false
                      /\ scenario_name r = "Client Agrees to Pay").
Proof.
  eexists. split; [reflexivity |].
  apply (failures_by_scenario_counts [steady_run; unlisted_run; unlisted_run]).
  reflexivity.
Defined.

(** ** The analysis: clients *)

Lemma keyed_map_lookup {V} (f : string -> V) (keys : list string) (key : string) :
  (list_to_map (map (fun k => (k, f k)) keys) : gmap string V) !! key
  = if bool_decide (key ∈ keys) then Some (f key) else None.
Proof.
  induction keys as [|k keys IH]; cbn [map list_to_map foldr].
  - rewrite lookup_empty. rewrite bool_decide_eq_false_2; [reflexivity |].
    apply not_elem_of_nil.
  - change (list_to_map ((k, f k) :: map (fun k0 => (k0, f k0)) keys))
      with (<[k := f k]> (list_to_map (map (fun k0 => (k0, f k0)) keys)
                          : gmap string V)).
    destruct (decide (k = key)) as [-> | Hne].
    + rewrite lookup_insert_eq, bool_decide_eq_true_2; [reflexivity |].
      apply elem_of_cons. now left.
    + rewrite lookup_insert_ne by exact Hne. rewrite IH.
      destruct (bool_decide (key ∈ keys)) eqn:E.
      * apply bool_decide_eq_true in E.
        rewrite bool_decide_eq_true_2; [reflexivity |].
        apply elem_of_cons. now right.
      * apply bool_decide_eq_false in E.
        rewrite bool_decide_eq_false_2; [reflexivity |].
        intros H. apply elem_of_cons in H. destruct H as [-> | H]; auto.
Qed.

Lemma results_of_client_nonempty (key : string) (results : list TestResult) :
  key ∈ map tr_client_key results ->
  (0 < length (results_of_client key results))%nat.
Proof.
  intros H. apply list_elem_of_In, in_map_iff in H.
  destruct H as (r & <- & Hin).
  assert (Hr : In r (results_of_client (tr_client_key r) results)).
  { apply List.filter_In. split; [exact Hin | apply String.eqb_refl]. }
  destruct (results_of_client (tr_client_key r) results); [destruct Hr |].
  cbn. lia.
Qed.

(** X18.  [per_client_stats] has an entry exactly for the clients that occur
    in the results; the entry counts the results of the client and, among
    them, those whose success flag is set, which are no more than the
    former, and its rate is their share in percent, between 0 and 100. *)
Theorem per_client_stats_entries
    (results : list TestResult) (an : analysis) (key : string) :
  analyze_results results = Some an ->
  (is_Some (per_client_stats an !! key) <-> key ∈ map tr_client_key results)
  /\ forall stats,
       per_client_stats an !! key = Some stats ->
       cs_total stats = length (results_of_client key results)
       /\ cs_passed stats
          = Stats.count_if success (results_of_client key results)
       /\ (0 < cs_total stats)%nat
       /\ (cs_passed stats <= cs_total stats)%nat
       /\ cs_success_rate stats
          = Stats.percent (cs_passed stats) (cs_total stats)
       /\ (0 <= cs_success_rate stats <= 100)%Q.
Proof.
  intros Han.
  destruct (analyze_results_dictionaries results an Han) as (_ & _ & ->).
  rewrite (keyed_map_lookup (stats_of_client results)). split.
  - destruct (bool_decide (key ∈ map tr_client_key results)) eqn:E.
    + apply bool_decide_eq_true in E. split; [auto | eauto].
    + apply bool_decide_eq_false in E.
      split; [intros [? H]; discriminate H | contradiction].
  - intros stats Hs.
    destruct (bool_decide (key ∈ map tr_client_key results)) eqn:E;
      [| discriminate Hs].
    apply bool_decide_eq_true in E. injection Hs as <-.
    pose proof (results_of_client_nonempty key results E) as Hpos.
    pose proof (count_if_le success (results_of_client key results)) as Hle.
    unfold stats_of_client. fold (results_of_client key results).
    cbn [cs_total cs_passed cs_success_rate].
    destruct (results_of_client key results) as [|x xs] eqn:Er;
      [cbn in Hpos; lia |].
    destruct (percent_bounds _ _ Hpos Hle) as (P0 & P1 & _).
    repeat split; auto.
Qed.

Lemma per_client_stats_entries_witness :
  exists an,
    analyze_results [steady_run; unlisted_run] = Some an
    /\ (is_Some (per_client_stats an !! "dell")
        <-> "dell" ∈ map tr_client_key [steady_run; unlisted_run])
    /\ forall stats,
         per_client_stats an !! "dell" = Some stats ->
         cs_total stats = length (results_of_client "dell" [steady_run; unlisted_run])
         /\ cs_passed stats
            = Stats.count_if success
                (results_of_client "dell" [steady_run; unlisted_run])
         /\ (0 < cs_total stats)%nat
         /\ (cs_passed stats <= cs_total stats)%nat
         /\ cs_success_rate stats
            = Stats.percent (cs_passed stats) (cs_total stats)
         /\ (0 <= cs_success_rate stats <= 100)%Q.
Proof.
  eexists. split; [reflexivity |].
  apply (per_client_stats_entries [steady_run; unlisted_run]). reflexivity.
Defined.

(** ** Identity challenges in a test *)

Section HarnessDenials.

Context {Ext : Type}.
Variable generate_content : string -> Ext -> result string * Ext.
Variable time_time : Ext -> Q * Ext.
Variable lower : string -> string.
Variable CONFIG : config.
Variable DEFAULT_CLIENT : option string.

#[local] Abbreviation init := (FrenchDebtCollectionAgent_init CONFIG DEFAULT_CLIENT).
#[local] Abbreviation respond := (generate_response generate_content lower CONFIG).
#[local] Abbreviation is_robot := (is_robot_question lower).
#[local] Abbreviation converse :=
  (run_conversation generate_content time_time lower CONFIG).
#[local] Abbreviation run_test :=
  (run_single_test generate_content time_time lower CONFIG DEFAULT_CLIENT).

#[local] Abbreviation answers_challenge := (answers_challenge lower).

Lemma get_robot_response_profile (a : agent) :
  get_robot_response a = get_robot_response (session_of_profile (client_config a)).
Proof. reflexivity. Qed.

Lemma run_conversation_denials msgs :
  forall a (r : TestResult) (ext : Ext),
    has_name a ->
    exists a' ext' entries,
      converse a msgs (r, ext) = (inr a', (add_entries entries r, ext'))
      /\ map ex_user entries = msgs
      /\ Forall (answers_challenge (client_config a)) entries.
Proof.
  induction msgs as [|msg rest IH]; intros a r ext Hn.
  - exists a, ext, []. repeat split. constructor.
  - cbn [run_conversation].
    unfold bind at 1. unfold read_clock at 1. cbn [fst snd].
    destruct (time_time ext) as [t0 e1].
    unfold bind at 1. unfold with_agent at 1. cbn [fst snd].
    destruct (respond_total generate_content lower CONFIG a e1 msg Hn)
      as (reply & e2 & E & Hbranch).
    rewrite E.
    unfold bind at 1. unfold read_clock at 1. cbn [fst snd].
    destruct (time_time e2) as [t1 e3].
    unfold bind at 1. unfold on_result, modify. cbn [fst snd].
    destruct (IH (after_exchange msg reply a)
                (add_exchange msg reply (t1 - t0)%Q r) e3 Hn)
      as (a' & ext' & entries & E' & Hu & Hd).
    exists a', ext',
      ({| ex_user := msg; ex_agent := reply; ex_response_time := (t1 - t0)%Q |}
       :: entries).
    rewrite E'. split; [reflexivity |]. split; [cbn; now rewrite Hu |].
    constructor; [| exact Hd].
    unfold answers_challenge. cbn [ex_user ex_agent]. intros Hq.
    rewrite <- get_robot_response_profile.
    destruct Hbranch as [(_ & Hr & _) | [(Hf & _) | (Hf & _)]];
      [exact Hr | congruence | congruence].
Qed.

(** X19.  In a test whose session is constructed, every utterance of the
    scenario that is an identity challenge is answered, in the transcript,
    by the denial preset for the profile of the client, whatever the backend
    returns or raises. *)
Theorem run_single_test_denials sc key it (ext : Ext) a :
  init (Some key) = inr a ->
  let r := fst (run_test sc key it ext) in
  map ex_user (drop 1 (conversation r)) = sc_conversation sc
  /\ Forall
       (fun e => is_robot (ex_user e) = true ->
                 get_robot_response a = inr (ex_agent e))
       (drop 1 (conversation r)).
Proof.
  intros Hi r. subst r.
  assert (Hn : has_name a) by (now apply init_has_name in Hi).
  destruct (get_greeting_total a Hn) as [g Hg].
  destruct (start_total a ext Hn) as [g' Hs].
  set (r1 := append_conversation (greeting_entry g')
               (TestResult_init (sc_name sc) key it)).
  destruct (run_conversation_denials (sc_conversation sc)
              (append_history ("Agent: " +:+ g') a) r1 ext Hn)
    as (a' & ext' & entries & E & Hu & Hd).
  assert (Hconv : conversation (add_entries entries r1)
                  = greeting_entry g' :: entries).
  { destruct (add_entries_fields entries r1) as (H1 & _). rewrite H1.
    reflexivity. }
  assert (Hlast : exists last_entry,
             last (greeting_entry g' :: entries) = Some last_entry).
  { destruct entries as [|x xs _] using rev_ind.
    - eexists. reflexivity.
    - eexists. rewrite app_comm_cons, last_snoc. reflexivity. }
  destruct Hlast as [last_entry Hl].
  assert (Hrun : conversation (fst (run_test sc key it ext))
                 = greeting_entry g' :: entries).
  { unfold run_single_test, try_except, run_single_test_body.
    unfold bind at 1. unfold lift_result at 1. rewrite Hi.
    unfold bind at 1. unfold with_agent at 1. cbn [fst snd]. rewrite Hs.
    unfold bind at 1. unfold on_result at 1, modify at 1. cbn [fst snd].
    fold (greeting_entry g'). fold r1.
    unfold bind at 1. rewrite E.
    unfold bind at 1. unfold gets at 1. cbn [fst snd].
    unfold bind at 1. unfold lift_result at 1, Seq.last_item.
    rewrite Hconv, Hl.
    unfold bind, on_result, modify, gets. cbn [fst snd].
    cbn [conversation finalize set_properly_closed]. exact Hconv. }
  rewrite Hrun. cbn [drop]. split; [exact Hu |].
  eapply Forall_impl; [exact Hd |].
  intros e He Hq. rewrite get_robot_response_profile. now apply He.
Qed.

End HarnessDenials.

Lemma run_single_test_denials_witness :
  let r := fst (run_single_test failing_backend call_clock Str.ascii_lower
                  demo_config None
                  {| sc_name := "Robot Question Detection";
                     sc_category := "Edge Case";
                     sc_conversation := ["Bonjour."; "Vous êtes un robot?";
                                         "À bientôt."] |}
                  "dell" 1 []) in
  map ex_user (drop 1 (conversation r))
  = ["Bonjour."; "Vous êtes un robot?"; "À bientôt."]
  /\ Forall
       (fun e => is_robot_question Str.ascii_lower (ex_user e) = true ->
                 get_robot_response demo_agent = inr (ex_agent e))
       (drop 1 (conversation r)).
Proof.
  apply (run_single_test_denials failing_backend call_clock Str.ascii_lower
           demo_config None
           {| sc_name := "Robot Question Detection";
              sc_category := "Edge Case";
              sc_conversation := ["Bonjour."; "Vous êtes un robot?";
                                  "À bientôt."] |}
           "dell" 1%nat [] demo_agent).
  vm_compute. reflexivity.
Defined.
